(** * batch-processor: a shallow embedding of [index.js] and [config.js]

    The program copies a template site once per target domain, rewrites
    the copy's [data/site-config.js], trims its [data/games.json] to a
    random selection of html5 games and publishes the result.

    Conventions of the embedding.
    - JavaScript strings are [string]; the numbers the program handles
      (site numbers, game counts, loop indices) are integers and are
      modelled exactly by [Z] and [nat], which agrees with IEEE doubles
      up to 2^53: there every integer is a double, and [parseInt], [+],
      [-], [++] and the decimal notation of a template literal are
      exact. A property that depends on the value of a site number is
      stated inside that range.
    - [Math.random()] is an oracle: an infinite sequence of rationals of
      the half-open unit interval, consumed one draw at a time; the
      product and [Math.floor] are exact. The code's product is a
      rounded double, which may give a neighbouring index but one below
      the factor all the same; the properties use that bound only.
    - Node's [path] module, [fs-extra], [child_process], [simple-git] and
      the [gh] command line are outside the repository; they appear as
      the operations of the classes [PathOps] and [Host]. The answers
      [inquirer] collects are an argument of the run ([UserInput]).
    - An [async] method is the sequential computation it awaits;
      [console.log] output is not modelled. *)

From Stdlib Require Import Ascii String QArith Qround DecimalString DecimalZ.
From stdpp Require Import base option list strings numbers gmap.

Local Open Scope string_scope.
Local Open Scope Z_scope.

(** ** Errors and results *)

(** One constructor per [throw new Error(...)] of [index.js], named after
    what the message reports, plus the two kinds of failure that come
    from outside: a JavaScript [TypeError] and a rejected file-system or
    subprocess call. *)
Inductive error : Type :=
  | GhMissing                                  (* checkDependencies, l.39 *)
  | GhNotLoggedIn                              (* checkDependencies, l.45 *)
  | TemplateNotFound (root name : string)      (* getUserInput, l.140 *)
  | InsufficientHtml5Games (have : nat) (need : Z)  (* getUserInput, l.155 *)
  | TemplatePathMissing (p : string)           (* validateTemplateProject, l.196 *)
  | TemplateFileMissing (file : string)        (* validateTemplateProject, l.202 *)
  | NoSiteNumber (siteName : string)           (* extractSiteNumber, l.219 *)
  | CountRangeTooSmall (len total : nat)       (* generateProjects, l.266 *)
  | ProjectFolderExists (projectName : string) (* generateProjects, l.282 *)
  | GithubUsernameUnset                        (* deployToGitHub, l.372 *)
  | DeployFailed (projectName : string)        (* deployToGitHub, l.399 *)
  | TypeError (what : string)
  | IOError (what : string)
  | PromptClosed.

Inductive result (A : Type) : Type :=
  | Ok (a : A)
  | Err (e : error).
Arguments Ok {A} a.
Arguments Err {A} e.

(** Sequencing of computations that may throw, written [x <- m ;; k]. *)
Definition result_bind {A B} (r : result A) (f : A → result B) : result B :=
  match r with
  | Ok a => f a
  | Err e => Err e
  end.

Declare Scope result_scope.
Delimit Scope result_scope with result.
Notation "x <- m ;; k" := (result_bind m (λ x, k))
  (at level 100, m at next level, right associativity) : result_scope.

Definition is_Ok {A} (r : result A) : bool :=
  match r with Ok _ => true | Err _ => false end.

(** ** The random oracle *)

(** A value [Math.random()] may return: a rational [q] with [0 <= q < 1]. *)
Record unit_draw : Type := UnitDraw {
  draw_val : Q;
  draw_ok : Qle_bool 0 draw_val && negb (Qle_bool 1 draw_val) = true
}.

(** The oracle is the sequence of draws still to come. *)
Definition rng : Type := nat → unit_draw.

(** [Math.random()]: hand out the next draw. *)
Definition random (g : rng) : unit_draw * rng := (g 0%nat, λ n, g (S n)).

(** [Math.floor(Math.random() * k)] for the draw [r]. *)
Definition floor_scaled (r : unit_draw) (k : Z) : Z :=
  Qfloor (draw_val r * inject_Z k).

(** ** Arrays of the program *)

(** The destructuring swap [[a[i], a[j]] = [a[j], a[i]]]: the right-hand
    side is read first, then [a[i]] and [a[j]] are written in that order.
    Both indices are inside the array wherever the program swaps (lemma
    [shuffle_index_in_range]); outside, JavaScript would read [undefined] and
    grow the array, which the element type here cannot hold, so the model
    leaves the array as it is. *)
Definition swap {A} (a : list A) (i j : nat) : list A :=
  match a !! j, a !! i with
  | Some aj, Some ai => <[j := ai]> (<[i := aj]> a)
  | _, _ => a
  end.

(** The Fisher-Yates loop [for (let i = a.length - 1; i > 0; i--)] with
    body [j = Math.floor(Math.random() * (i + 1)); swap(a, i, j)]; the
    argument [i] is the value of the loop variable on entry. *)
Fixpoint shuffle_from {A} (i : nat) (a : list A) (g : rng) : list A * rng :=
  match i with
  | O => (a, g)
  | S i' =>
      let '(r, g1) := random g in
      let j := Z.to_nat (floor_scaled r (Z.of_nat i + 1)) in
      shuffle_from i' (swap a i j) g1
  end.

Definition shuffle {A} (a : list A) (g : rng) : list A * rng :=
  shuffle_from (length a - 1)%nat a g.

(** ** Planning the game counts ([generateProjects], l.262-272) *)

(** [for (let i = gamesMin; i <= gamesMax; i++) possibleCounts.push(i)]:
    the integers from [gamesMin] to [gamesMax] in increasing order, none
    when [gamesMax < gamesMin]. *)
Definition possibleCounts (gamesMin gamesMax : Z) : list Z :=
  seqZ gamesMin (gamesMax - gamesMin + 1).

(** The block that builds, checks and shuffles [possibleCounts]; the
    specification calls it [planCounts]. *)
Definition planCounts (gamesMin gamesMax : Z) (totalSitesToCreate : nat)
    (g : rng) : result (list Z) * rng :=
  let counts := possibleCounts gamesMin gamesMax in
  if (length counts <? totalSitesToCreate)%nat
  then (Err (CountRangeTooSmall (length counts) totalSitesToCreate), g)
  else let '(shuffled, g') := shuffle counts g in (Ok shuffled, g').

(** [const gamesCount = possibleCounts[siteIndex]] (l.297): [None] stands
    for JavaScript's [undefined]. *)
Definition gamesCount_at (counts : list Z) (siteIndex : nat) : option Z :=
  counts !! siteIndex.

(** ** Strings *)

Definition dquote : string := String (ascii_of_nat 34) "".
Definition newline : string := String (ascii_of_nat 10) "".

(** The class [\d] of a JavaScript regular expression: ASCII [0]-[9]. *)
Definition is_digit (c : ascii) : bool :=
  let n := nat_of_ascii c in ((48 <=? n) && (n <=? 57))%nat.

Fixpoint all_digits (s : string) : bool :=
  match s with
  | "" => true
  | String c s' => is_digit c && all_digits s'
  end.

(** [s.match(/(\d+)$/)]: the regular expression is tried at each start
    position from the left and matches at the first one from which only
    digits (at least one) remain; the result is capture group 1. *)
Fixpoint match_trailing_digits (s : string) : option string :=
  match s with
  | "" => None
  | String _ s' => if all_digits s then Some s else match_trailing_digits s'
  end.

(** [parseInt] on a string of decimal digits: the value of the numeral,
    which is the double the code obtains as long as that value is at
    most 2^53. *)
Fixpoint parseInt_from (acc : Z) (digits : string) : Z :=
  match digits with
  | "" => acc
  | String c s' => parseInt_from (10 * acc + (Z.of_nat (nat_of_ascii c) - 48)) s'
  end.

Definition parseInt (digits : string) : Z := parseInt_from 0 digits.

(** An integer inside a template literal: its decimal notation with all
    its digits, as JavaScript prints the integers below 10^21. *)
Definition number_to_string (z : Z) : string :=
  NilEmpty.string_of_int (Z.to_int z).

(** [s.endsWith(suffix)] and [s.includes(part)]. *)
Fixpoint includes (part s : string) : bool :=
  String.prefix part s ||
  match s with
  | "" => false
  | String _ s' => includes part s'
  end.

Fixpoint endsWith (suffix s : string) : bool :=
  String.eqb suffix s ||
  match s with
  | "" => false
  | String _ s' => endsWith suffix s'
  end.

(** [chars.charAt(i)]: the one-character string at index [i], the empty
    string outside the string. *)
Definition charAt (s : string) (i : Z) : string :=
  if (i <? 0) then ""
  else match String.get (Z.to_nat i) s with
       | Some c => String c ""
       | None => ""
       end.

(** [Some rest] when [s] is [p] followed by [rest]. *)
Fixpoint strip_prefix (p s : string) : option string :=
  match p, s with
  | "", _ => Some s
  | String a p', String b s' => if Ascii.eqb a b then strip_prefix p' s' else None
  | String _ _, "" => None
  end.

(** The first occurrence of [needle] in [s], as the text before it and
    the text after it. *)
Fixpoint split_at_first (needle s : string) : option (string * string) :=
  match strip_prefix needle s with
  | Some after => Some ("", after)
  | None =>
      match s with
      | "" => None
      | String c s' =>
          match split_at_first needle s' with
          | Some (before, after) => Some (String c before, after)
          | None => None
          end
      end
  end.

(** ** Site names ([extractSiteNumber], [validateProjectNames]) *)

Definition extractSiteNumber (siteName : string) : result Z :=
  match match_trailing_digits siteName with
  | None => Err (NoSiteNumber siteName)
  | Some digits => Ok (parseInt digits)
  end.

(** The template literal [`site${n}`]. *)
Definition site_name (n : Z) : string := "site" +:+ number_to_string n.

(** The prompts' [validate]: a non-blank input on which
    [/site\d+$/.test(input)] holds (the first follows from the second).
    The regular expression is tried at each start position: the literal
    [site], then digits, at least one, up to the end. *)
Fixpoint test_site_digits (input : string) : bool :=
  match strip_prefix "site" input with
  | Some rest => negb (String.eqb rest "") && all_digits rest
  | None => false
  end
  || match input with
     | "" => false
     | String _ input' => test_site_digits input'
     end.

(** ** JSON values *)

#[local] Set Warnings "-register-all".
Inductive jsval : Type :=
  | JNull
  | JBool (b : bool)
  | JNum (z : Z)
  | JStr (s : string)
  | JArr (items : list jsval)
  | JObj (fields : list (string * jsval)).

Fixpoint assoc_get {V} (k : string) (fields : list (string * V)) : option V :=
  match fields with
  | [] => None
  | (k', v) :: rest => if String.eqb k k' then Some v else assoc_get k rest
  end.

Fixpoint assoc_set {V} (k : string) (v : V) (fields : list (string * V))
    : list (string * V) :=
  match fields with
  | [] => [(k, v)]
  | (k', v') :: rest =>
      if String.eqb k k' then (k, v) :: rest else (k', v') :: assoc_set k v rest
  end.

(** [v.k] for a key that is no built-in property of arrays, strings or
    numbers: [None] is [undefined]; reading a property of [null] throws. *)
Definition get_prop (v : jsval) (k : string) : result (option jsval) :=
  match v with
  | JNull => Err (TypeError k)
  | JObj fields => Ok (assoc_get k fields)
  | _ => Ok None
  end.

(** [v.k = x] on an object. *)
Definition set_prop (v : jsval) (k : string) (x : jsval) : jsval :=
  match v with
  | JObj fields => JObj (assoc_set k x fields)
  | _ => v
  end.

(** [tags.includes("html5")]: some element is the string [html5]. *)
Definition is_html5_string (v : jsval) : bool :=
  match v with
  | JStr s => String.eqb s "html5"
  | _ => false
  end.

(** The filter callback
    [game => Array.isArray(game.tags) && game.tags.includes("html5")]. *)
Definition has_html5_tag (game : jsval) : result bool :=
  (tags <- get_prop game "tags" ;;
   Ok (match tags with
       | Some (JArr items) => existsb is_html5_string items
       | _ => false
       end))%result.

(** [games.filter(callback)] for a callback that may throw. *)
Fixpoint filter_games (games : list jsval) : result (list jsval) :=
  match games with
  | [] => Ok []
  | game :: rest =>
      (keep <- has_html5_tag game ;;
       kept <- filter_games rest ;;
       Ok (if keep then game :: kept else kept))%result
  end.

(** [a.slice(0, end)]: [end] is [undefined] ([None], the whole array), a
    count from the start, or when negative a count from the end. *)
Definition slice0 {A} (a : list A) (end_ : option Z) : list A :=
  match end_ with
  | None => a
  | Some n =>
      if n <? 0 then take (Z.to_nat (Z.of_nat (length a) + n)) a
      else take (Z.to_nat n) a
  end.

(** Lines 341-358 of [processGamesJson]: filter, shuffle, slice. The
    specification calls this [selectGames]. *)
Definition selectGames (games : list jsval) (gamesCount : option Z) (g : rng)
    : result (list jsval) * rng :=
  match filter_games games with
  | Err e => (Err e, g)
  | Ok html5Games =>
      let '(shuffled, g') := shuffle html5Games g in
      (Ok (slice0 shuffled gamesCount), g')
  end.

(** ** Configuration ([config.js]) *)

Record SiteTemplate : Type := {
  title : string;
  description : string;
  keywords : list string;
  language : string
}.

Record Config : Type := {
  domains : list string;
  githubUsername : string;
  siteTemplate : SiteTemplate
}.

Definition config : Config := {|
  domains := ["game92.vip"];
  githubUsername := "wjspark";
  siteTemplate := {|
    title := "game92 Games - Online HTML5 Games Platform";
    description := "Discover endless entertainment with our collection of premium HTML5 games. Play instantly in your browser - featuring mind-bending puzzles, thrilling adventures, strategic challenges, and fast-paced action games for all ages.";
    keywords := ["Web Games"; "Interactive Entertainment"; "Instant Play Games";
                 "Cross-Platform Gaming"; "Educational Games"; "Multiplayer Games";
                 "Retro Games"; "Mobile-Friendly Games"; "Gaming Portal";
                 "Flash Alternative"];
    language := "en"
  |}
|}.

(** ** [JSON.stringify] on an array of strings *)

Definition hex_digit (n : nat) : ascii :=
  ascii_of_nat (if (n <? 10)%nat then 48 + n else 87 + n).

(** One character inside a JSON string literal (QuoteJSONString). *)
Definition json_escape_char (c : ascii) : string :=
  let n := nat_of_ascii c in
  if (n =? 34)%nat then "\" +:+ dquote
  else if (n =? 92)%nat then "\\"
  else if (n =? 8)%nat then "\b"
  else if (n =? 9)%nat then "\t"
  else if (n =? 10)%nat then "\n"
  else if (n =? 12)%nat then "\f"
  else if (n =? 13)%nat then "\r"
  else if (n <? 32)%nat
       then "\u00" +:+ String (hex_digit (n / 16)) (String (hex_digit (n mod 16)) "")
  else String c "".

Fixpoint json_escape (s : string) : string :=
  match s with
  | "" => ""
  | String c s' => json_escape_char c +:+ json_escape s'
  end.

Definition json_quote (s : string) : string := dquote +:+ json_escape s +:+ dquote.

Fixpoint join_with (sep : string) (parts : list string) : string :=
  match parts with
  | [] => ""
  | x :: rest =>
      match rest with
      | [] => x
      | _ :: _ => x +:+ sep +:+ join_with sep rest
      end
  end.

Definition stringify_strings (items : list string) : string :=
  "[" +:+ join_with "," (map json_quote items) +:+ "]".

(** ** The site block ([updateSiteConfig]) *)

(** One line [  "key": value,] of the template literal. *)
Definition site_field (key value : string) : string :=
  "  " +:+ dquote +:+ key +:+ dquote +:+ ": " +:+ value +:+ ",".

Definition quoted (s : string) : string := dquote +:+ s +:+ dquote.

(** The lines of the template literal [newSiteObject] (l.315-327). *)
Definition newSiteObject_lines (cfg : Config) (domain : string) : list string :=
  [ "const site = {";
    site_field "name" (quoted domain);
    site_field "title" (quoted (title (siteTemplate cfg)));
    site_field "description" (quoted (description (siteTemplate cfg)));
    site_field "logo" (quoted "/images/logo.png");
    site_field "favicon" (quoted "/favicon.ico");
    site_field "keywords" (stringify_strings (keywords (siteTemplate cfg)));
    site_field "author" (quoted (domain +:+ " Team"));
    site_field "language" (quoted (language (siteTemplate cfg)));
    site_field "url" (quoted ("https://" +:+ domain));
    site_field "twitterCard" (quoted "/images/summary_large_image.png");
    site_field "ogImage" (quoted "/images/og-image.png");
    "};" ].

Definition newSiteObject (cfg : Config) (domain : string) : string :=
  join_with newline (newSiteObject_lines cfg domain).

(** [[\s\S]*?] followed by the literal [lit], tried at the start of
    [s]: the star is lazy, so the literal is tried after 0, 1, 2, ...
    characters (any character matches [[\s\S]]) and the first success
    counts. The result is the text the star took and the text after the
    literal. *)
Definition lazy_any_then (lit s : string) : option (string * string) :=
  split_at_first lit s.

(** The regular expression [/const site = {[\s\S]*?};/] applied to
    [content]: the pattern is tried at each start position from the left
    (the literal [const site = {], the lazy star, the literal [};]) and
    the first position with a match counts. The result is the text
    before the match, the text the star took and the text after the
    match. *)
Fixpoint match_site_block (content : string) : option (string * string * string) :=
  match
    match strip_prefix "const site = {" content with
    | Some rest => lazy_any_then "};" rest
    | None => None
    end
  with
  | Some (body, after) => Some ("", body, after)
  | None =>
      match content with
      | "" => None
      | String c content' =>
          match match_site_block content' with
          | Some (before, body, after) => Some (String c before, body, after)
          | None => None
          end
      end
  end.

(** The replacement text of [String.prototype.replace] (GetSubstitution)
    for a regular expression without capture groups: [$$] is a dollar,
    [$&] the matched text, [$`] the text before the match, [$'] the text
    after it; every other character, a dollar before a digit or [<]
    included, stands for itself. *)
Fixpoint getSubstitution (matched before after replacement : string) : string :=
  match replacement with
  | "" => ""
  | String c rest =>
      if (nat_of_ascii c =? 36)%nat then
        match rest with
        | "" => String c ""
        | String d rest' =>
            let n := nat_of_ascii d in
            if (n =? 36)%nat then
              String c (getSubstitution matched before after rest')
            else if (n =? 38)%nat then
              matched +:+ getSubstitution matched before after rest'
            else if (n =? 96)%nat then
              before +:+ getSubstitution matched before after rest'
            else if (n =? 39)%nat then
              after +:+ getSubstitution matched before after rest'
            else String c (getSubstitution matched before after rest)
        end
      else String c (getSubstitution matched before after rest)
  end.

(** [content.replace(/const site = {[\s\S]*?};/, replacement)]: only the
    first match is replaced; without a match the text is returned as it
    is. *)
Definition replace_site_block (content replacement : string) : string :=
  match match_site_block content with
  | None => content
  | Some (before, body, after) =>
      let matched := "const site = {" +:+ body +:+ "};" in
      before +:+ getSubstitution matched before after replacement +:+ after
  end.

(** ** Domains ([generateRandomPrefix], [generateProjects] l.249-260) *)

Definition chars : string := "abcdefghijklmnopqrstuvwxyz0123456789".

(** The loop of [generateRandomPrefix] with [n] iterations left. *)
Fixpoint generateRandomPrefix_from (n : nat) (result : string) (g : rng)
    : string * rng :=
  match n with
  | O => (result, g)
  | S n' =>
      let '(r, g1) := random g in
      let c := charAt chars (floor_scaled r (Z.of_nat (String.length chars))) in
      generateRandomPrefix_from n' (result +:+ c) g1
  end.

Definition generateRandomPrefix (length : nat) (g : rng) : string * rng :=
  generateRandomPrefix_from length "" g.

(** The inner loop [for (let i = 0; i < subdomainCount; i++)] with [n]
    iterations left; [push] appends at the end. *)
Fixpoint push_subdomains (n : nat) (mainDomain : string) (prefixLength : nat)
    (allDomains : list string) (g : rng) : list string * rng :=
  match n with
  | O => (allDomains, g)
  | S n' =>
      let '(prefix, g1) := generateRandomPrefix prefixLength g in
      push_subdomains n' mainDomain prefixLength
        (allDomains ++ [prefix +:+ "." +:+ mainDomain])%list g1
  end.

(** The outer loop [for (const mainDomain of config.domains)]. *)
Fixpoint push_domains (mainDomains : list string) (subdomainCount prefixLength : nat)
    (allDomains : list string) (g : rng) : list string * rng :=
  match mainDomains with
  | [] => (allDomains, g)
  | mainDomain :: rest =>
      let allDomains1 := (allDomains ++ [mainDomain])%list in
      let '(allDomains2, g1) :=
        if (0 <? subdomainCount)%nat
        then push_subdomains subdomainCount mainDomain prefixLength allDomains1 g
        else (allDomains1, g) in
      push_domains rest subdomainCount prefixLength allDomains2 g1
  end.

(** The specification's [expand(baseDomains, subdomainCount, prefixLength)]. *)
Definition expand (baseDomains : list string) (subdomainCount prefixLength : nat)
    (g : rng) : list string * rng :=
  push_domains baseDomains subdomainCount prefixLength [] g.

(** ** The outside world *)

(** Node's [path] module. *)
Class PathOps : Type := {
  path_join : string → string → string;
  path_dirname : string → string;
  path_resolve : string → string → string;
  path_sep : string
}.

(** What the program asks of the machine it runs on, whose state is [St]:
    [fs-extra], [child_process.execSync] and [simple-git]. A call either
    yields the next state or is rejected. [pathExists] never rejects. *)
Class Host (St : Type) : Type := {
  pathExists : St → string → bool;
  copy : St → string → string → (string → bool) → result St;
  readFile : St → string → result string;
  writeFile : St → string → string → result St;
  readJson : St → string → result jsval;
  writeJson : St → string → jsval → result St;
  execSync : St → option string → string → result St;
  gitInitAddCommit : St → string → result St;
  gitRemoveRemotes : St → string → result St
}.

(** An element of [this.generatedSites]. *)
Record site : Type := Site {
  projectName : string;
  path : string;
  domain : string
}.

(** What the user types at the prompts: the five answers of the first
    form, each already accepted by its [validate] callback, and the
    successive answers to the starting-name question. *)
Record UserInput : Type := {
  in_templateName : string;
  in_subdomainCount : nat;
  in_prefixLength : nat;
  in_gamesMin : Z;
  in_gamesMax : Z;
  in_startingSiteNames : list string
}.

(** The [validate] callbacks of the first form (l.65-98). *)
Definition questions_validate (i : UserInput) : bool :=
  test_site_digits (in_templateName i)
  && ((in_subdomainCount i =? 0)%nat
      || ((3 <=? in_prefixLength i) && (in_prefixLength i <=? 10))%nat)
  && (1 <=? in_gamesMin i)
  && (in_gamesMin i <=? in_gamesMax i).

(** The [answers] object as [getUserInput] returns it. *)
Record Answers : Type := {
  templateName : string;
  subdomainCount : nat;
  prefixLength : nat;
  gamesMin : Z;
  gamesMax : Z;
  startingSiteName : string;
  templatePath : string
}.

(** The state of a run: the machine, the draws [Math.random] has yet to
    return, and [this.generatedSites]. *)
Record world (St : Type) : Type := World {
  host : St;
  oracle : rng;
  generatedSites : list site
}.
Arguments World {St} _ _ _.
Arguments host {St} _.
Arguments oracle {St} _.
Arguments generatedSites {St} _.

(** A step of the run: it ends normally or throws, and leaves a state
    either way. *)
Definition prog (St A : Type) : Type := world St → result A * world St.

Definition prog_ret {St A} (a : A) : prog St A := λ w, (Ok a, w).

Definition prog_bind {St A B} (m : prog St A) (f : A → prog St B) : prog St B :=
  λ w, match m w with
       | (Ok a, w') => f a w'
       | (Err e, w') => (Err e, w')
       end.

Definition throw {St A} (e : error) : prog St A := λ w, (Err e, w).

(** [try { m } catch (error) { handler(error) }]. *)
Definition try_catch {St A} (m : prog St A) (handler : error → prog St A) : prog St A :=
  λ w, match m w with
       | (Ok a, w') => (Ok a, w')
       | (Err e, w') => handler e w'
       end.

Definition lift_result {St A} (r : result A) : prog St A := λ w, (r, w).

(** A call that only reads the machine. *)
Definition read_host {St A} (f : St → A) : prog St A := λ w, (Ok (f (host w)), w).

Definition query_host {St A} (f : St → result A) : prog St A := λ w, (f (host w), w).

(** A call that changes the machine. *)
Definition call_host {St} (f : St → result St) : prog St unit :=
  λ w, match f (host w) with
       | Ok s' => (Ok tt, World s' (oracle w) (generatedSites w))
       | Err e => (Err e, w)
       end.

(** A computation that draws from [Math.random]. *)
Definition with_random {St A} (f : rng → A * rng) : prog St A :=
  λ w, let '(a, g') := f (oracle w) in
       (Ok a, World (host w) g' (generatedSites w)).

Definition with_random_result {St A} (f : rng → result A * rng) : prog St A :=
  λ w, let '(r, g') := f (oracle w) in
       (r, World (host w) g' (generatedSites w)).

(** [this.generatedSites.push(s)]. *)
Definition push_site {St} (s : site) : prog St unit :=
  λ w, (Ok tt, World (host w) (oracle w) (generatedSites w ++ [s])%list).

Declare Scope prog_scope.
Delimit Scope prog_scope with prog.
Notation "x <- m ;; k" := (prog_bind m (λ x, k))
  (at level 100, m at next level, right associativity) : prog_scope.
Notation "m ;;; k" := (prog_bind m (λ _, k))
  (at level 100, right associativity) : prog_scope.

(** ** The program ([class BatchProcessor]) *)

(** [if (v)]: JavaScript's truthiness of a JSON value or [undefined]. *)
Definition truthy (v : option jsval) : bool :=
  match v with
  | None | Some JNull => false
  | Some (JBool b) => b
  | Some (JNum z) => negb (z =? 0)
  | Some (JStr s) => negb (String.eqb s "")
  | Some (JArr _) | Some (JObj _) => true
  end.

Section Program.
Context `{PathOps} {St : Type} `{Host St}.

(** The imported [config] and the value of [__dirname]. *)
Variable cfg : Config.
Variable script_dir : string.

Local Open Scope prog_scope.

(** [this.workspaceRoot], set by the constructor. *)
Definition workspaceRoot : string := path_resolve script_dir "..".

Definition checkDependencies : prog St unit :=
  try_catch (call_host (λ s, execSync s None "gh --version"))
            (λ _, throw GhMissing) ;;;
  try_catch (call_host (λ s, execSync s None "gh auth status"))
            (λ _, throw GhNotLoggedIn).

(** The loop of [findTemplatePath] with [n] of its 5 iterations left. *)
Fixpoint findTemplatePath_from (n : nat) (s : St) (startDir templateName : string)
    (currentDir : string) : option string :=
  match n with
  | O => None
  | S n' =>
      let potentialPath := path_join currentDir templateName in
      if pathExists s potentialPath then Some potentialPath
      else
        let parentDir := path_dirname currentDir in
        if String.eqb parentDir currentDir then
          let siblingCheckDir := path_join (path_dirname startDir) "wjspark" in
          let finalPath := path_join siblingCheckDir templateName in
          if pathExists s finalPath then Some finalPath else None
        else findTemplatePath_from n' s startDir templateName parentDir
  end.

Definition findTemplatePath (s : St) (startDir templateName : string)
    : option string :=
  findTemplatePath_from 5 s startDir templateName startDir.

Definition requiredFiles : list string := ["data/site-config.js"; "data/games.json"].

Fixpoint check_requiredFiles (s : St) (fullPath : string) (files : list string)
    : result unit :=
  match files with
  | [] => Ok tt
  | file :: rest =>
      if pathExists s (path_join fullPath file)
      then check_requiredFiles s fullPath rest
      else Err (TemplateFileMissing file)
  end.

Definition validateTemplateProject (s : St) (fullPath : string) : result unit :=
  if pathExists s fullPath
  then check_requiredFiles s fullPath requiredFiles
  else Err (TemplatePathMissing fullPath).

(** The loop of [validateProjectNames]: [n] iterations left, [i] the
    loop variable. The sum [baseNumber + i] is the code's as long as it
    is at most 2^53. *)
Fixpoint conflicts_from (n i : nat) (s : St) (baseNumber : Z)
    (conflicts : list string) : list string :=
  match n with
  | O => conflicts
  | S n' =>
      let projectName := site_name (baseNumber + Z.of_nat i) in
      let projectPath := path_join workspaceRoot projectName in
      conflicts_from n' (S i) s baseNumber
        (if pathExists s projectPath
         then (conflicts ++ [projectName])%list
         else conflicts)
  end.

Definition validateProjectNames (s : St) (startingSiteName : string)
    (totalSitesToCreate : nat) : result (list string) :=
  (baseNumber <- extractSiteNumber startingSiteName ;;
   Ok (conflicts_from totalSitesToCreate 0 s baseNumber []))%result.

(** The [while (true)] loop of [getUserInput] over the names the user
    types: a name that [validate] rejects is asked again by the prompt
    itself, a name with conflicts by the loop. *)
Fixpoint askStartingSiteName (names : list string) (totalSitesToCreate : nat)
    : prog St string :=
  match names with
  | [] => throw PromptClosed
  | name :: more =>
      if test_site_digits name then
        conflicts <- query_host (λ s, validateProjectNames s name totalSitesToCreate) ;;
        if (length conflicts =? 0)%nat then prog_ret name
        else askStartingSiteName more totalSitesToCreate
      else askStartingSiteName more totalSitesToCreate
  end.

(** [gamesData.games ? gamesData.games.filter(...) : []] (l.148). *)
Definition template_html5Games (gamesData : jsval) : result (list jsval) :=
  (games <- get_prop gamesData "games" ;;
   if truthy games then
     match games with
     | Some (JArr items) => filter_games items
     | _ => Err (TypeError "filter")
     end
   else Ok [])%result.

Definition getUserInput (input : UserInput) : prog St Answers :=
  let totalSitesToCreate :=
    (length (domains cfg) * (1 + in_subdomainCount input))%nat in
  startingSiteName <-
    askStartingSiteName (in_startingSiteNames input) totalSitesToCreate ;;
  found <- read_host (λ s, findTemplatePath s workspaceRoot (in_templateName input)) ;;
  match found with
  | None => throw (TemplateNotFound workspaceRoot (in_templateName input))
  | Some foundPath =>
      let gamesJsonPath := path_join foundPath "data/games.json" in
      gamesData <- query_host (λ s, readJson s gamesJsonPath) ;;
      html5Games <- lift_result (template_html5Games gamesData) ;;
      if Z.of_nat (length html5Games) <? in_gamesMax input
      then throw (InsufficientHtml5Games (length html5Games) (in_gamesMax input))
      else
        query_host (λ s, validateTemplateProject s foundPath) ;;;
        prog_ret {| templateName := in_templateName input;
                    subdomainCount := in_subdomainCount input;
                    prefixLength := in_prefixLength input;
                    gamesMin := in_gamesMin input;
                    gamesMax := in_gamesMax input;
                    startingSiteName := startingSiteName;
                    templatePath := foundPath |}
  end.

Definition updateSiteConfig (projectPath projectName domain : string)
    : prog St unit :=
  let configPath := path_join projectPath "data/site-config.js" in
  content <- query_host (λ s, readFile s configPath) ;;
  let content' := replace_site_block content (newSiteObject cfg domain) in
  call_host (λ s, writeFile s configPath content').

Definition processGamesJson (projectPath : string) (gamesCount : option Z)
    : prog St unit :=
  let gamesPath := path_join projectPath "data/games.json" in
  try_catch
    (gamesData <- query_host (λ s, readJson s gamesPath) ;;
     games <- lift_result (get_prop gamesData "games") ;;
     gamesData' <-
       match games with
       | Some (JArr items) =>
           selected <- with_random_result (selectGames items gamesCount) ;;
           prog_ret (set_prop gamesData "games" (JArr selected))
       | _ => prog_ret gamesData
       end ;;
     call_host (λ s, writeJson s gamesPath gamesData'))
    (λ _, prog_ret tt).

(** The [filter] option of [fs.copy]: everything but [.git]. *)
Definition copy_filter (src : string) : bool :=
  if endsWith (path_sep +:+ ".git") src
     || includes (path_sep +:+ ".git" +:+ path_sep) src
  then false else true.

(** The loop [for (const newDomain of allDomains)] of [generateProjects];
    the counters have the values they hold on entry. The increment
    [siteNumberCounter++] is the code's as long as the counter stays
    below 2^53, and so is [baseNumber - 1] in [generateProjects]. *)
Fixpoint createSites (allDomains : list string) (templatePath : string)
    (possibleCounts : list Z) (siteNumberCounter : Z) (siteIndex : nat)
    : prog St unit :=
  match allDomains with
  | [] => prog_ret tt
  | newDomain :: rest =>
      let siteNumberCounter := siteNumberCounter + 1 in
      let projectName := site_name siteNumberCounter in
      let projectPath := path_join workspaceRoot projectName in
      taken <- read_host (λ s, pathExists s projectPath) ;;
      if (taken : bool) then throw (ProjectFolderExists projectName)
      else
        call_host (λ s, copy s templatePath projectPath copy_filter) ;;;
        updateSiteConfig projectPath projectName newDomain ;;;
        let gamesCount := gamesCount_at possibleCounts siteIndex in
        processGamesJson projectPath gamesCount ;;;
        push_site {| projectName := projectName;
                     path := projectPath;
                     domain := newDomain |} ;;;
        createSites rest templatePath possibleCounts siteNumberCounter (S siteIndex)
  end.

Definition generateProjects (answers : Answers) : prog St unit :=
  baseNumber <- lift_result (extractSiteNumber (startingSiteName answers)) ;;
  let totalSitesToCreate :=
    (length (domains cfg) * (1 + subdomainCount answers))%nat in
  let siteNumberCounter := baseNumber - 1 in
  allDomains <- with_random
    (expand (domains cfg) (subdomainCount answers) (prefixLength answers)) ;;
  counts <- with_random_result
    (planCounts (gamesMin answers) (gamesMax answers) totalSitesToCreate) ;;
  createSites allDomains (templatePath answers) counts siteNumberCounter 0.

Definition deploySite (s : site) : prog St unit :=
  try_catch
    (call_host (λ h, gitInitAddCommit h (path s)) ;;;
     call_host (λ h, gitRemoveRemotes h (path s)) ;;;
     let repoName := "wj-" +:+ projectName s in
     let fullRepoName := githubUsername cfg +:+ "/" +:+ repoName in
     call_host (λ h, execSync h (Some (path s))
       ("gh repo create " +:+ fullRepoName +:+ " --source=. --push --private")))
    (λ _, throw (DeployFailed (projectName s))).

Fixpoint deploySites (sites : list site) : prog St unit :=
  match sites with
  | [] => prog_ret tt
  | s :: rest => deploySite s ;;; deploySites rest
  end.

Definition deployToGitHub : prog St unit :=
  if String.eqb (githubUsername cfg) "YourGitHubUsername"
     || String.eqb (githubUsername cfg) ""
  then throw GithubUsernameUnset
  else λ w, deploySites (generatedSites w) w.

Definition site_mapping (s : site) : jsval :=
  JObj [("siteName", JStr (projectName s)); ("domain", JStr (domain s))].

Definition writeSiteMappings : prog St unit :=
  λ w,
    let mapping := JArr (map site_mapping (generatedSites w)) in
    let outputPath := path_join script_dir "generated-sites-map.json" in
    call_host (λ s, writeJson s outputPath mapping) w.

(** [start]: a thrown error ends the run ([process.exit(1)]). *)
Definition start (input : UserInput) : prog St unit :=
  checkDependencies ;;;
  answers <- getUserInput input ;;
  generateProjects answers ;;;
  deployToGitHub ;;;
  writeSiteMappings.

End Program.

(** ** A machine in memory

    An instance of the two interfaces on which the program can be run
    inside Rocq: POSIX paths without normalisation, and a disk that maps
    each path to a directory, a text file or a JSON file. Subprocesses
    and git always succeed and leave the disk alone. *)

Definition posix_join (dir name : string) : string :=
  if String.eqb dir "/" then "/" +:+ name else dir +:+ "/" +:+ name.

Definition posix_dirname (p : string) : string :=
  match split_at_first "/" (String.rev p) with
  | None => "."
  | Some (_, rev_dir) => if String.eqb rev_dir "" then "/" else String.rev rev_dir
  end.

Definition posix_resolve (dir rel : string) : string :=
  if String.eqb rel ".." then posix_dirname dir else posix_join dir rel.

#[global] Instance posix_paths : PathOps := {|
  path_join := posix_join;
  path_dirname := posix_dirname;
  path_resolve := posix_resolve;
  path_sep := "/"
|}.

Inductive node : Type :=
  | Dir
  | TextFile (content : string)
  | JsonFile (value : jsval).

Abbreviation disk := (gmap string node).

Definition disk_copy (d : disk) (src dst : string) (keep : string → bool)
    : result disk :=
  match d !! src with
  | None => Err (IOError src)
  | Some _ =>
      Ok (map_fold
            (λ p n acc,
               match strip_prefix src p with
               | Some rest =>
                   if (String.eqb rest "" || String.prefix "/" rest) && keep p
                   then <[dst +:+ rest := n]> acc
                   else acc
               | None => acc
               end)
            d d)
  end.

Definition disk_readFile (d : disk) (p : string) : result string :=
  match d !! p with
  | Some (TextFile content) => Ok content
  | _ => Err (IOError p)
  end.

Definition disk_readJson (d : disk) (p : string) : result jsval :=
  match d !! p with
  | Some (JsonFile value) => Ok value
  | _ => Err (IOError p)
  end.

#[global] Instance disk_host : Host disk := {|
  pathExists d p := bool_decide (is_Some (d !! p));
  copy := disk_copy;
  readFile := disk_readFile;
  writeFile d p content := Ok (<[p := TextFile content]> d);
  readJson := disk_readJson;
  writeJson d p value := Ok (<[p := JsonFile value]> d);
  execSync d _ _ := Ok d;
  gitInitAddCommit d _ := Ok d;
  gitRemoveRemotes d _ := Ok d
|}.

(** A sample workspace: the script in [/work/batch-processor], the
    template [/work/site31] with a site block and [n] html5 games among
    its catalog entries, and one older project [/work/site40]. *)
Definition sample_game (tag : string) (id : nat) : jsval :=
  JObj [("id", JNum (Z.of_nat id)); ("tags", JArr [JStr "arcade"; JStr tag])].

Definition sample_catalog (n : nat) : jsval :=
  JObj [("games",
         JArr (sample_game "flash" 0 :: JObj [("id", JNum 1)]
               :: map (sample_game "html5") (seq 2 n)))].

Definition sample_site_config : string :=
  "// generated" +:+ newline +:+
  "const site = {" +:+ newline +:+ "  name: 'template'," +:+ newline +:+ "};" +:+ newline +:+
  "export default site;" +:+ newline.

Definition sample_disk (n : nat) : disk :=
  list_to_map
    [ ("/work", Dir);
      ("/work/batch-processor", Dir);
      ("/work/site40", Dir);
      ("/work/site31", Dir);
      ("/work/site31/.git", Dir);
      ("/work/site31/.git/config", TextFile "[core]");
      ("/work/site31/data", Dir);
      ("/work/site31/data/site-config.js", TextFile sample_site_config);
      ("/work/site31/data/games.json", JsonFile (sample_catalog n)) ].

Definition sample_draw (k : nat) : unit_draw :=
  match (k mod 4)%nat with
  | 0%nat => UnitDraw (3 # 4) eq_refl
  | 1%nat => UnitDraw (1 # 7) eq_refl
  | 2%nat => UnitDraw (0 # 1) eq_refl
  | _ => UnitDraw (9 # 10) eq_refl
  end.

Definition sample_world (n : nat) : world disk :=
  World (sample_disk n) sample_draw [].

Definition sample_input : UserInput := {|
  in_templateName := "site31";
  in_subdomainCount := 2;
  in_prefixLength := 5;
  in_gamesMin := 3;
  in_gamesMax := 6;
  in_startingSiteNames := ["blog"; "site39"; "mysite047"]
|}.

(** ** Notions the properties are stated with *)

(** The value of a decimal numeral, most significant digit first. *)
Fixpoint decimal_value (digits : string) : Z :=
  match digits with
  | "" => 0
  | String c rest =>
      (Z.of_nat (nat_of_ascii c) - 48) * 10 ^ Z.of_nat (String.length rest)
      + decimal_value rest
  end.

Fixpoint last_is_digit (s : string) : bool :=
  match s with
  | "" => false
  | String c "" => is_digit c
  | String _ rest => last_is_digit rest
  end.

(** [name] is [stem] followed by its trailing digit run [digits]. *)
Definition trailing_integer (name stem digits : string) : Prop :=
  name = stem +:+ digits
  ∧ digits ≠ ""
  ∧ all_digits digits = true
  ∧ last_is_digit stem = false.

(** The names [site(n)], [site(n+1)], ..., [site(n+K-1)]. *)
Definition sequential_names (n : Z) (K : nat) : list string :=
  map (λ i, "site" +:+ number_to_string (n + Z.of_nat i)) (seq 0 K).

(** A character of the prefix alphabet: a lowercase letter or a digit. *)
Definition is_lower_or_digit (c : ascii) : bool :=
  let n := nat_of_ascii c in
  ((97 <=? n) && (n <=? 122) || (48 <=? n) && (n <=? 57))%nat.

Fixpoint string_forall (P : ascii → bool) (s : string) : bool :=
  match s with
  | "" => true
  | String c rest => P c && string_forall P rest
  end.

Definition valid_prefix (len : nat) (p : string) : Prop :=
  String.length p = len ∧ string_forall is_lower_or_digit p = true.

(** The part of the planned sequence that belongs to one base domain. *)
Definition domain_group (subdomainCount prefixLength : nat) (base : string)
    (group : list string) : Prop :=
  ∃ prefixes : list string,
    group = base :: map (λ p, p +:+ "." +:+ base) prefixes
    ∧ length prefixes = subdomainCount
    ∧ Forall (valid_prefix prefixLength) prefixes.

(** The regular expression [^[a-z0-9]{5}\.a\.com$]. *)
Definition matches_sub5_a_com (s : string) : bool :=
  string_forall is_lower_or_digit (String.substring 0 5 s)
  && String.eqb (String.substring 5 (String.length s - 5) s) ".a.com"
  && (String.length s =? 11)%nat.

(** The tag list of a catalog entry, and entries tagged [html5]. *)
Definition game_tags (game : jsval) : list jsval :=
  match game with
  | JObj fields =>
      match assoc_get "tags" fields with
      | Some (JArr items) => items
      | _ => []
      end
  | _ => []
  end.

Definition tagged_html5 (game : jsval) : Prop := In (JStr "html5") (game_tags game).

Definition eligible (game : jsval) : bool := existsb is_html5_string (game_tags game).

Definition eligibleCount (catalog : list jsval) : nat :=
  length (List.filter eligible catalog).

(** The catalog of a parsed [games.json]: its [games] array, empty when
    there is none. *)
Definition catalog_of (gamesData : jsval) : list jsval :=
  match gamesData with
  | JObj fields =>
      match assoc_get "games" fields with
      | Some (JArr items) => items
      | _ => []
      end
  | _ => []
  end.

(** [content] holds a piece of text that [/const site = {[\s\S]*?};/]
    matches: an opening [const site = {] with a closing [};] after it. *)
Definition has_site_block (content : string) : Prop :=
  ∃ before body after : string,
    content = before +:+ "const site = {" +:+ body +:+ "};" +:+ after.

Definition occurs_in (part s : string) : Prop :=
  ∃ before after : string, s = before +:+ part +:+ after.

Definition dollar_free (s : string) : bool :=
  string_forall (λ c, negb (nat_of_ascii c =? 36)%nat) s.

Section Locate.
Context `{PathOps} {St : Type} `{Host St}.

(** The [k]-th ancestor of a directory, and the directories that are
    their own parent. *)
Definition ancestor (k : nat) (dir : string) : string :=
  Nat.iter k path_dirname dir.

Definition is_fs_root (dir : string) : bool := String.eqb (path_dirname dir) dir.

(** Level [k] of the upward walk is visited when no level below it is
    the file-system root. The bound of five levels counts the workspace
    root itself: the walk is bounded to levels 0 to 4, the workspace
    root and at most four ancestors. *)
Definition level_visited (startDir : string) (k : nat) : bool :=
  forallb (λ j, negb (is_fs_root (ancestor j startDir))) (seq 0 k).

Definition visited_levels (startDir : string) : list nat :=
  List.filter (level_visited startDir) (seq 0 5).

Definition root_reached (startDir : string) : bool :=
  existsb (λ k, is_fs_root (ancestor k startDir)) (visited_levels startDir).

(** The paths [locate] tries, in order. *)
Definition locate_candidates (startDir templateName : string) : list string :=
  (map (λ k, path_join (ancestor k startDir) templateName) (visited_levels startDir)
   ++ (if root_reached startDir
       then [path_join (path_join (path_dirname startDir) "wjspark") templateName]
       else []))%list.

(** [locate] with the bound read as above: the first candidate that
    exists. *)
Definition locate (s : St) (workspaceRoot templateName : string) : option string :=
  List.find (pathExists s) (locate_candidates workspaceRoot templateName).

(** The search in the words of the specification: the workspace root
    first, then a walk up the parent directories of up to five levels
    (levels 1 to 5), and the sibling directory when the walk has met the
    file-system root. *)
Definition claimed_levels (startDir : string) : list nat :=
  List.filter (level_visited startDir) (seq 0 6).

Definition claimed_candidates (startDir templateName : string) : list string :=
  (map (λ k, path_join (ancestor k startDir) templateName) (claimed_levels startDir)
   ++ (if existsb (λ k, is_fs_root (ancestor k startDir)) (claimed_levels startDir)
       then [path_join (path_join (path_dirname startDir) "wjspark") templateName]
       else []))%list.

Definition claimed_locate (s : St) (workspaceRoot templateName : string)
    : option string :=
  List.find (pathExists s) (claimed_candidates workspaceRoot templateName).

End Locate.

(** A step that leaves [this.generatedSites] alone. *)
Definition keeps_sites {St A} (m : prog St A) : Prop :=
  ∀ w, generatedSites (m w).2 = generatedSites w.

(** The entries [generateProjects] appends to [this.generatedSites] for
    the planned domains [allDomains] and the first site number [n]. *)
Definition planned_sites `{PathOps} (workspace : string) (n : Z)
    (allDomains : list string) : list site :=
  imap (λ i newDomain,
          {| projectName := "site" +:+ number_to_string (n + Z.of_nat i);
             path := path_join workspace ("site" +:+ number_to_string (n + Z.of_nat i));
             domain := newDomain |})
       allDomains.


(** The answers of a run on the sample workspace, and a workspace whose
    template has a site configuration without a site block. *)
Definition sample_answers : Answers := {|
  templateName := "site31";
  subdomainCount := 2;
  prefixLength := 5;
  gamesMin := 3;
  gamesMax := 6;
  startingSiteName := "mysite047";
  templatePath := "/work/site31"
|}.

Definition blockless_site_config : string :=
  "module.exports = { name: 'template' };" +:+ newline.

Definition blockless_world : world disk :=
  World (<["/work/site31/data/site-config.js" := TextFile blockless_site_config]>
           (sample_disk 8))
        sample_draw [].

Definition semicolon_free (s : string) : bool :=
  string_forall (λ c, negb (nat_of_ascii c =? 59)%nat) s.

(** A workspace whose template catalog has no [games] array, and the
    answers of a run that starts at the existing [site40]. *)
Definition gameless_world : world disk :=
  World (<["/work/site31/data/games.json" := JsonFile (JObj [("title", JStr "none")])]>
           (sample_disk 8))
        sample_draw [].


(** * Properties *)

(** ** Strings *)

Lemma string_app_cons (c : ascii) (s t : string) :
  String c s +:+ t = String c (s +:+ t).
Proof. reflexivity. Qed.

Lemma string_app_empty_r (s : string) : s +:+ "" = s.
Proof.
  induction s as [|c s IH]; [done|]. by rewrite string_app_cons, IH.
Qed.

Lemma string_app_assoc (s1 s2 s3 : string) :
  s1 +:+ (s2 +:+ s3) = (s1 +:+ s2) +:+ s3.
Proof.
  induction s1 as [|c s1 IH]; [done|]. by rewrite !string_app_cons, IH.
Qed.

Lemma string_app_length (s1 s2 : string) :
  String.length (s1 +:+ s2) = (String.length s1 + String.length s2)%nat.
Proof.
  induction s1 as [|c s1 IH]; [done|].
  rewrite string_app_cons. simpl. by rewrite IH.
Qed.

Lemma string_forall_app (P : ascii → bool) (s1 s2 : string) :
  string_forall P (s1 +:+ s2) = string_forall P s1 && string_forall P s2.
Proof.
  induction s1 as [|c s1 IH]; [done|].
  rewrite string_app_cons. simpl. by rewrite IH, andb_assoc.
Qed.

Lemma string_forall_impl (P Q : ascii → bool) (s : string) :
  (∀ c, P c = true → Q c = true) →
  string_forall P s = true → string_forall Q s = true.
Proof.
  intros HPQ. induction s as [|c s IH]; [done|]. simpl.
  intros Hs. apply andb_prop in Hs as [Hc Hs]. by rewrite (HPQ c Hc), IH.
Qed.

(** *** Searching a text *)

Lemma strip_prefix_spec (p s rest : string) :
  strip_prefix p s = Some rest ↔ s = p +:+ rest.
Proof.
  revert s. induction p as [|a p IH]; intros s.
  - simpl. split; [by intros [= ->]|by intros ->].
  - destruct s as [|b s]; simpl.
    + split; [done|]. rewrite string_app_cons. discriminate.
    + rewrite string_app_cons.
      destruct (Ascii.eqb_spec a b) as [->|Hne].
      * rewrite IH. split; [by intros ->|by intros [= ->]].
      * split; [done|]. intros [= <- _]. done.
Qed.

Lemma split_at_first_eq (needle s : string) :
  split_at_first needle s
  = match strip_prefix needle s with
    | Some after => Some ("", after)
    | None =>
        match s with
        | "" => None
        | String c s' =>
            match split_at_first needle s' with
            | Some (before, after) => Some (String c before, after)
            | None => None
            end
        end
    end.
Proof. by destruct s. Qed.

Lemma split_at_first_sound (needle s before after : string) :
  split_at_first needle s = Some (before, after) →
  s = before +:+ needle +:+ after.
Proof.
  revert before. induction s as [|c s IH]; intros before.
  - rewrite split_at_first_eq.
    destruct (strip_prefix needle "") as [rest|] eqn:Hp; [|done].
    intros [= <- <-]. by apply strip_prefix_spec in Hp.
  - rewrite split_at_first_eq.
    destruct (strip_prefix needle (String c s)) as [rest|] eqn:Hp.
    + intros [= <- <-]. by apply strip_prefix_spec in Hp.
    + destruct (split_at_first needle s) as [[before' after']|]; [|done].
      intros [= <- <-]. rewrite string_app_cons. f_equal. by apply IH.
Qed.

(** The occurrence found is the first one. *)
Lemma split_at_first_complete (needle s before' after' : string) :
  s = before' +:+ needle +:+ after' →
  ∃ before after,
    split_at_first needle s = Some (before, after)
    ∧ (String.length before ≤ String.length before')%nat.
Proof.
  revert s. induction before' as [|c before' IH]; intros s ->.
  - assert (Hp : strip_prefix needle (needle +:+ after') = Some after')
      by (by apply strip_prefix_spec).
    exists "", after'. split; [|simpl; lia].
    change ("" +:+ needle +:+ after') with (needle +:+ after').
    by rewrite split_at_first_eq, Hp.
  - rewrite string_app_cons, split_at_first_eq.
    destruct (strip_prefix needle _) as [rest|].
    + exists "", rest. split; [done|simpl; lia].
    + destruct (IH _ eq_refl) as (before & after & -> & Hlen).
      exists (String c before), after. split; [done|simpl; lia].
Qed.

Lemma split_at_first_None (needle s : string) :
  split_at_first needle s = None → ¬ occurs_in needle s.
Proof.
  intros Hnone (before & after & Hs).
  destruct (split_at_first_complete _ _ _ _ Hs) as (? & ? & Hsome & _).
  congruence.
Qed.

(** Two ways of cutting one text: the shorter head is a head of the
    longer one. *)
Lemma string_app_eq_prefix (p r y z : string) :
  p +:+ r = y +:+ z →
  (String.length p ≤ String.length y)%nat →
  ∃ y', y = p +:+ y' ∧ r = y' +:+ z.
Proof.
  revert y. induction p as [|a p IH]; intros y Heq Hlen.
  - exists y. by split.
  - destruct y as [|b y]; [simpl in Hlen; lia|].
    rewrite !string_app_cons in Heq. injection Heq as -> Heq.
    destruct (IH y Heq) as (y' & -> & ->); [simpl in Hlen; lia|].
    by exists y'.
Qed.

(** ** The random index and the shuffle *)

Lemma draw_range (r : unit_draw) : (0 <= draw_val r)%Q ∧ (draw_val r < 1)%Q.
Proof.
  destruct r as [q Hq]; simpl.
  apply andb_true_iff in Hq as [H0 H1].
  apply Qle_bool_iff in H0.
  apply negb_true_iff in H1.
  split; [exact H0|].
  apply Qnot_le_lt. intros Hle. apply Qle_bool_iff in Hle. congruence.
Qed.

(** [Math.floor(Math.random() * k)] is an index below [k]. *)
Lemma floor_scaled_bound (r : unit_draw) (k : Z) :
  0 < k → 0 ≤ floor_scaled r k < k.
Proof.
  intros Hk. destruct (draw_range r) as [H0 H1]. unfold floor_scaled.
  assert (Hkq : (0 < inject_Z k)%Q).
  { change (inject_Z 0 < inject_Z k)%Q. rewrite <- Zlt_Qlt. exact Hk. }
  split.
  - rewrite <- (Qfloor_Z 0). apply Qfloor_resp_le.
    apply Qmult_le_0_compat; [exact H0 | apply Qlt_le_weak; exact Hkq].
  - apply Z.lt_nge. intros Hge.
    assert (Hq : (inject_Z k <= draw_val r * inject_Z k)%Q).
    { eapply Qle_trans; [|apply Qfloor_le]. rewrite <- Zle_Qle. exact Hge. }
    assert (Hlt : (draw_val r * inject_Z k < 1 * inject_Z k)%Q).
    { apply Qmult_lt_compat_r; assumption. }
    rewrite Qmult_1_l in Hlt.
    exact (Qlt_not_le _ _ Hlt Hq).
Qed.

(** The index [j] of the shuffle's swap at loop variable [i] is at most
    [i], so both cells of the swap lie inside the array. *)
Lemma shuffle_index_in_range (r : unit_draw) (i : nat) :
  (Z.to_nat (floor_scaled r (Z.of_nat i + 1)) ≤ i)%nat.
Proof.
  pose proof (floor_scaled_bound r (Z.of_nat i + 1)) as Hb. lia.
Qed.

Lemma swap_length {A} (a : list A) i j : length (swap a i j) = length a.
Proof.
  unfold swap. destruct (a !! j), (a !! i); try done.
  by rewrite !length_insert.
Qed.

Lemma swap_perm {A} (a : list A) i j : swap a i j ≡ₚ a.
Proof.
  unfold swap.
  destruct (a !! j) as [aj|] eqn:Hj, (a !! i) as [ai|] eqn:Hi; try done.
  by apply Permutation_insert_swap.
Qed.

(** Inside the array the swap exchanges the two cells. *)
Lemma swap_lookup {A} (a : list A) (i j : nat) :
  (i < length a)%nat → (j < length a)%nat →
  swap a i j !! i = a !! j ∧ swap a i j !! j = a !! i.
Proof.
  intros Hi Hj. unfold swap.
  destruct (lookup_lt_is_Some_2 a i Hi) as [ai Hai].
  destruct (lookup_lt_is_Some_2 a j Hj) as [aj Haj].
  rewrite Hai, Haj. split.
  - destruct (decide (i = j)) as [->|Hne].
    + rewrite list_lookup_insert_eq by (by rewrite length_insert). congruence.
    + rewrite list_lookup_insert_ne by done.
      by rewrite list_lookup_insert_eq.
  - by rewrite list_lookup_insert_eq by (by rewrite length_insert).
Qed.

Lemma shuffle_from_perm {A} (i : nat) (a : list A) (g : rng) :
  (shuffle_from i a g).1 ≡ₚ a.
Proof.
  revert a g. induction i as [|i IH]; intros a g; [done|].
  cbn [shuffle_from]. unfold random.
  rewrite IH. apply swap_perm.
Qed.

Lemma shuffle_perm {A} (a : list A) (g : rng) : (shuffle a g).1 ≡ₚ a.
Proof. apply shuffle_from_perm. Qed.

Lemma shuffle_length {A} (a : list A) (g : rng) :
  length (shuffle a g).1 = length a.
Proof. by rewrite shuffle_perm. Qed.

(** ** Game counts *)

Lemma possibleCounts_length (gamesMin gamesMax : Z) :
  Z.of_nat (length (possibleCounts gamesMin gamesMax))
  = Z.max 0 (gamesMax - gamesMin + 1).
Proof. unfold possibleCounts. rewrite length_seqZ. lia. Qed.

Lemma planCounts_ok (gamesMin gamesMax : Z) (total : nat) (g : rng) :
  (length (possibleCounts gamesMin gamesMax) <? total)%nat = false →
  planCounts gamesMin gamesMax total g
  = (Ok (shuffle (possibleCounts gamesMin gamesMax) g).1,
     (shuffle (possibleCounts gamesMin gamesMax) g).2).
Proof.
  intros Hlen. unfold planCounts. rewrite Hlen.
  by destruct (shuffle _ g).
Qed.

Lemma planCounts_perm gamesMin gamesMax total g counts g' :
  planCounts gamesMin gamesMax total g = (Ok counts, g') →
  counts ≡ₚ possibleCounts gamesMin gamesMax ∧ (total ≤ length counts)%nat.
Proof.
  unfold planCounts.
  destruct (_ <? _)%nat eqn:Hlen; [done|].
  destruct (shuffle _ g) as [shuffled g1] eqn:Hsh. intros [= <- <-].
  assert (Hp : shuffled ≡ₚ possibleCounts gamesMin gamesMax).
  { change shuffled with (shuffled, g1).1. rewrite <- Hsh. apply shuffle_perm. }
  split; [done|]. rewrite Hp. apply Nat.ltb_ge in Hlen. lia.
Qed.

(** C1. Whenever the range [gamesMin..gamesMax] holds at least
    [totalSites] integers, the plan of game counts succeeds; project [i]
    receives entry [i] of the shuffled range, for [i] below [totalSites];
    and the [totalSites] counts handed out in this way are pairwise
    distinct and lie in [[gamesMin, gamesMax]]. *)
Theorem planCounts_distinct_in_range
    (gamesMin gamesMax : Z) (totalSites : nat) (g : rng) :
  (gamesMax - gamesMin + 1 >= Z.of_nat totalSites)%Z →
  ∃ (counts assigned : list Z) (g' : rng),
    planCounts gamesMin gamesMax totalSites g = (Ok counts, g')
    ∧ length assigned = totalSites
    ∧ (∀ siteIndex, (siteIndex < totalSites)%nat →
         gamesCount_at counts siteIndex = assigned !! siteIndex)
    ∧ NoDup assigned
    ∧ Forall (λ c, gamesMin ≤ c ≤ gamesMax) assigned.
Proof.
  intros Hrange.
  assert (Hlen : (length (possibleCounts gamesMin gamesMax) <? totalSites)%nat = false).
  { apply Nat.ltb_ge. pose proof (possibleCounts_length gamesMin gamesMax). lia. }
  pose proof (planCounts_ok gamesMin gamesMax totalSites g Hlen) as Hplan.
  destruct (planCounts_perm _ _ _ _ _ _ Hplan) as [Hperm Htotal].
  set (counts := (shuffle (possibleCounts gamesMin gamesMax) g).1) in *.
  exists counts, (take totalSites counts), (shuffle (possibleCounts gamesMin gamesMax) g).2.
  split; [exact Hplan|].
  split; [rewrite length_take; lia|].
  split; [intros i Hi; unfold gamesCount_at; by rewrite lookup_take_lt|].
  assert (Hnodup : NoDup counts).
  { rewrite Hperm. apply NoDup_seqZ. }
  split.
  - exact (sublist_NoDup _ _ Hnodup (sublist_take _ _)).
  - apply Forall_take. apply Forall_forall. intros c Hc.
    rewrite Hperm in Hc. apply elem_of_seqZ in Hc. lia.
Qed.

Lemma planCounts_distinct_in_range_witness :
  (6 - 3 + 1 >= Z.of_nat 3)%Z
  ∧ ∃ (counts assigned : list Z) (g' : rng),
      planCounts 3 6 3 sample_draw = (Ok counts, g')
      ∧ length assigned = 3%nat
      ∧ (∀ siteIndex, (siteIndex < 3)%nat →
           gamesCount_at counts siteIndex = assigned !! siteIndex)
      ∧ NoDup assigned
      ∧ Forall (λ c, 3 ≤ c ≤ 6) assigned.
Proof.
  assert (Hrange : (6 - 3 + 1 >= Z.of_nat 3)%Z) by lia.
  split; [exact Hrange|].
  exact (planCounts_distinct_in_range 3 6 3 sample_draw Hrange).
Defined.

(** The answers the first form accepts hold a range that is not
    inverted and starts at 1 or above. *)
Lemma questions_validate_range (input : UserInput) :
  questions_validate input = true →
  1 ≤ in_gamesMin input ≤ in_gamesMax input.
Proof.
  unfold questions_validate. intros Hv.
  apply andb_prop in Hv as [Hv Hmax]. apply andb_prop in Hv as [_ Hmin].
  apply Z.leb_le in Hmax, Hmin. lia.
Qed.

(** C6. The plan of game counts throws its range error exactly when the
    range holds fewer integers than there are projects, and otherwise
    returns a plan. With at least one project, or with a range that is
    not inverted (the prompt accepts [gamesMin <= gamesMax] only), that
    is exactly when [gamesMax - gamesMin + 1 < totalSites]. *)
Theorem planCounts_error_iff_range_too_small
    (gamesMin gamesMax : Z) (totalSites : nat) (g : rng) :
  ((planCounts gamesMin gamesMax totalSites g).1
     = Err (CountRangeTooSmall (length (possibleCounts gamesMin gamesMax)) totalSites)
   ∨ is_Ok (planCounts gamesMin gamesMax totalSites g).1 = true)
  ∧ (is_Ok (planCounts gamesMin gamesMax totalSites g).1 = false
     ↔ Z.max 0 (gamesMax - gamesMin + 1) < Z.of_nat totalSites)
  ∧ ((0 < totalSites)%nat ∨ gamesMin ≤ gamesMax + 1 →
     (is_Ok (planCounts gamesMin gamesMax totalSites g).1 = false
      ↔ gamesMax - gamesMin + 1 < Z.of_nat totalSites)).
Proof.
  pose proof (possibleCounts_length gamesMin gamesMax) as Hlen.
  assert (Hcases :
    ((length (possibleCounts gamesMin gamesMax) <? totalSites)%nat = true
     ∧ (planCounts gamesMin gamesMax totalSites g).1
       = Err (CountRangeTooSmall (length (possibleCounts gamesMin gamesMax)) totalSites))
    ∨ ((length (possibleCounts gamesMin gamesMax) <? totalSites)%nat = false
       ∧ is_Ok (planCounts gamesMin gamesMax totalSites g).1 = true)).
  { destruct (_ <? _)%nat eqn:Hlt.
    - left. split; [done|]. unfold planCounts. by rewrite Hlt.
    - right. split; [done|]. by rewrite planCounts_ok. }
  split; [|split].
  - destruct Hcases as [[_ ->]|[_ ->]]; auto.
  - destruct Hcases as [[Hlt Hr]|[Hge Hr]]; rewrite Hr; simpl.
    + apply Nat.ltb_lt in Hlt. split; [lia|done].
    + apply Nat.ltb_ge in Hge. split; [done|lia].
  - intros Hvalid.
    destruct Hcases as [[Hlt Hr]|[Hge Hr]]; rewrite Hr; simpl.
    + apply Nat.ltb_lt in Hlt. split; [lia|done].
    + apply Nat.ltb_ge in Hge. split; [done|lia].
Qed.

Lemma planCounts_error_iff_range_too_small_witness :
  (planCounts 10 12 5 sample_draw).1 = Err (CountRangeTooSmall 3 5)
  ∧ (is_Ok (planCounts 10 12 5 sample_draw).1 = false ↔ 12 - 10 + 1 < Z.of_nat 5).
Proof.
  destruct (planCounts_error_iff_range_too_small 10 12 5 sample_draw)
    as (_ & _ & Hiff).
  split; [reflexivity|]. apply Hiff. right. lia.
Defined.

(** With no project and an inverted range the range is empty and the
    check passes, although [gamesMax - gamesMin + 1] is negative. *)
Example planCounts_no_project_inverted_range :
  (planCounts 5 3 0 sample_draw).1 = Ok [].
Proof. reflexivity. Qed.

(** ** The planned domains *)

(** Every index below 36 selects a lowercase letter or a digit. *)
Lemma chars_alphabet (m : nat) :
  (m < 36)%nat →
  ∃ a, String.get m chars = Some a ∧ is_lower_or_digit a = true.
Proof.
  intros Hm.
  assert (Hall : forallb
    (λ k, match String.get k chars with
          | Some a => is_lower_or_digit a
          | None => false
          end) (seq 0 36) = true) by (vm_compute; reflexivity).
  rewrite forallb_forall in Hall. specialize (Hall m).
  destruct (String.get m chars) as [a|].
  - exists a. split; [done|]. apply Hall, in_seq. lia.
  - discriminate Hall. apply in_seq. lia.
Qed.

Lemma generateRandomPrefix_from_spec (n : nat) (result : string) (g : rng) :
  ∃ p, (generateRandomPrefix_from n result g).1 = result +:+ p ∧ valid_prefix n p.
Proof.
  revert result g. induction n as [|n IH]; intros result g.
  - exists "". split; [|done]. simpl. by rewrite string_app_empty_r.
  - cbn [generateRandomPrefix_from]. unfold random.
    set (c := charAt chars _).
    destruct (IH (result +:+ c) (λ k, g (S k))) as (p & Hp & Hlen & Hall).
    assert (Hc : ∃ a, c = String a "" ∧ is_lower_or_digit a = true).
    { subst c. set (r := g 0%nat).
      pose proof (floor_scaled_bound r (Z.of_nat (String.length chars))) as Hb.
      change (Z.of_nat (String.length chars)) with 36 in *.
      specialize (Hb eq_refl).
      unfold charAt. destruct (Z.ltb_spec (floor_scaled r 36) 0) as [?|_]; [lia|].
      destruct (chars_alphabet (Z.to_nat (floor_scaled r 36))) as (a & -> & Ha);
        [lia|eauto]. }
    destruct Hc as (a & -> & Ha).
    exists (String a p). split.
    + rewrite Hp. by rewrite <- string_app_assoc.
    + split; [simpl; by f_equal|]. simpl. by rewrite Ha.
Qed.

Lemma generateRandomPrefix_valid (len : nat) (g : rng) :
  valid_prefix len (generateRandomPrefix len g).1.
Proof.
  destruct (generateRandomPrefix_from_spec len "" g) as (p & Hp & Hv).
  unfold generateRandomPrefix. by rewrite Hp.
Qed.

Lemma push_subdomains_spec (n : nat) (base : string) (pl : nat)
    (allDomains : list string) (g : rng) :
  ∃ prefixes,
    (push_subdomains n base pl allDomains g).1
    = (allDomains ++ map (λ p, p +:+ "." +:+ base) prefixes)%list
    ∧ length prefixes = n ∧ Forall (valid_prefix pl) prefixes.
Proof.
  revert allDomains g. induction n as [|n IH]; intros allDomains g.
  - exists []. simpl. by rewrite app_nil_r.
  - cbn [push_subdomains].
    pose proof (generateRandomPrefix_valid pl g) as Hv.
    destruct (generateRandomPrefix pl g) as [prefix g1]. simpl in Hv.
    destruct (IH (allDomains ++ [prefix +:+ "." +:+ base])%list g1)
      as (ps & Hps & Hlen & Hall).
    exists (prefix :: ps). rewrite Hps, <- app_assoc. simpl.
    split; [done|]. split; [by f_equal|]. by constructor.
Qed.

Lemma push_domains_spec (bases : list string) (sc pl : nat)
    (allDomains : list string) (g : rng) :
  ∃ groups,
    (push_domains bases sc pl allDomains g).1 = (allDomains ++ concat groups)%list
    ∧ Forall2 (domain_group sc pl) bases groups.
Proof.
  revert allDomains g. induction bases as [|base rest IH]; intros allDomains g.
  - exists []. simpl. by rewrite app_nil_r.
  - cbn [push_domains].
    assert (Hgroup : ∃ prefixes g1,
      (if (0 <? sc)%nat
       then push_subdomains sc base pl (allDomains ++ [base]) g
       else ((allDomains ++ [base])%list, g))
      = ((allDomains ++ base :: map (λ p, p +:+ "." +:+ base) prefixes)%list, g1)
      ∧ length prefixes = sc ∧ Forall (valid_prefix pl) prefixes).
    { destruct (Nat.ltb_spec 0 sc) as [Hpos|Hzero].
      - destruct (push_subdomains_spec sc base pl (allDomains ++ [base]) g)
          as (ps & Hps & Hlen & Hall).
        exists ps, (push_subdomains sc base pl (allDomains ++ [base]) g).2.
        split; [|done].
        rewrite (surjective_pairing (push_subdomains _ _ _ _ _)), Hps.
        by rewrite <- app_assoc.
      - exists [], g. split; [done|]. split; [simpl; lia|constructor]. }
    destruct Hgroup as (ps & g1 & -> & Hlen & Hall).
    destruct (IH (allDomains ++ base :: map (λ p, p +:+ "." +:+ base) ps)%list g1)
      as (groups & Hgroups & HF).
    exists ((base :: map (λ p, p +:+ "." +:+ base) ps) :: groups).
    split.
    + rewrite Hgroups. simpl. by rewrite <- app_assoc.
    + constructor; [|done]. by exists ps.
Qed.

Lemma expand_groups (bases : list string) (sc pl : nat) (g : rng) :
  ∃ groups,
    (expand bases sc pl g).1 = concat groups
    ∧ Forall2 (domain_group sc pl) bases groups.
Proof. apply (push_domains_spec bases sc pl [] g). Qed.

(** One project per base domain and per subdomain of it. *)
Lemma expand_length (bases : list string) (sc pl : nat) (g : rng) :
  length (expand bases sc pl g).1 = (length bases * (1 + sc))%nat.
Proof.
  destruct (expand_groups bases sc pl g) as (groups & -> & HF).
  induction HF as [|base group bases' groups' (ps & -> & Hlen & _) _ IH]; [done|].
  cbn [concat]. rewrite length_app, IH. simpl. rewrite length_map. lia.
Qed.

Lemma valid_prefix_matches (p : string) :
  valid_prefix 5 p → matches_sub5_a_com (p +:+ ".a.com") = true.
Proof.
  intros [Hlen Hall].
  do 6 (destruct p as [|? p]; try discriminate Hlen).
  simpl in Hall. unfold matches_sub5_a_com.
  cbn [String.substring String.append]. simpl.
  repeat (apply andb_prop in Hall as [? Hall]).
  repeat (apply andb_true_intro; split); try done.
Qed.

(** C5. The planned sequence is, base domain by base domain and in their
    order, the base domain followed by [subdomainCount] entries
    [<prefix>.<base>] whose prefix has [prefixLength] characters, each a
    lowercase letter or a digit. For [["a.com"]], 2 and 5 these are three
    domains: [a.com] and two strings that [^[a-z0-9]{5}\.a\.com$]
    matches. *)
Theorem expand_base_then_subdomains
    (baseDomains : list string) (subdomainCount prefixLength : nat) (g : rng) :
  (∃ groups : list (list string),
     (expand baseDomains subdomainCount prefixLength g).1 = concat groups
     ∧ Forall2 (domain_group subdomainCount prefixLength) baseDomains groups)
  ∧ (∃ d1 d2 : string,
       (expand ["a.com"] 2 5 g).1 = ["a.com"; d1; d2]
       ∧ matches_sub5_a_com d1 = true
       ∧ matches_sub5_a_com d2 = true).
Proof.
  split; [apply expand_groups|].
  destruct (expand_groups ["a.com"] 2 5 g) as (groups & Hexp & HF).
  apply Forall2_cons_inv_l in HF as (group & rest & (ps & -> & Hlen & Hall) & HF & ->).
  apply Forall2_nil_inv_l in HF as ->.
  destruct ps as [|p1 [|p2 [|? ?]]]; try discriminate Hlen.
  apply Forall_cons in Hall as [H1 Hall]. apply Forall_cons in Hall as [H2 _].
  exists (p1 +:+ ".a.com"), (p2 +:+ ".a.com").
  split; [by rewrite Hexp|].
  split; by apply valid_prefix_matches.
Qed.

(** ** The game selection *)

Lemma is_html5_string_spec (v : jsval) :
  is_html5_string v = true ↔ v = JStr "html5".
Proof.
  destruct v; simpl; try (split; [discriminate|discriminate]).
  rewrite String.eqb_eq. split; [by intros ->|by intros [= ->]].
Qed.

Lemma eligible_tagged (game : jsval) :
  eligible game = true ↔ tagged_html5 game.
Proof.
  unfold eligible, tagged_html5. rewrite existsb_exists. split.
  - intros (v & Hin & Hv). apply is_html5_string_spec in Hv. by subst.
  - intros Hin. exists (JStr "html5"). split; [done|].
    by apply is_html5_string_spec.
Qed.

(** The filter callback decides eligibility; it throws on [null] only. *)
Lemma has_html5_tag_eligible (game : jsval) :
  game ≠ JNull → has_html5_tag game = Ok (eligible game).
Proof.
  intros Hnull. unfold has_html5_tag, eligible, game_tags.
  destruct game as [| | | | |fields]; try done.
  simpl. by destruct (assoc_get "tags" fields) as [[]|].
Qed.

Lemma filter_games_eligible (games : list jsval) :
  Forall (λ game, game ≠ JNull) games →
  filter_games games = Ok (List.filter eligible games).
Proof.
  induction 1 as [|game rest Hgame _ IH]; [done|].
  cbn [filter_games List.filter].
  rewrite (has_html5_tag_eligible game Hgame), IH. simpl.
  by destruct (eligible game).
Qed.

Lemma filter_submseteq {A} (p : A → bool) (l : list A) : List.filter p l ⊆+ l.
Proof.
  induction l as [|x l IH]; simpl; [done|].
  destruct (p x); [by apply submseteq_skip|by apply submseteq_cons].
Qed.

(** C3. For a catalog of game records (no [null] entry) and a count, the
    selection succeeds; every selected entry carries the string [html5]
    in its tag list and comes from the catalog; there are at most
    [count] of them, and exactly the smaller of [count] and the number
    of eligible entries. *)
Theorem selectGames_html5_min_count (catalog : list jsval) (count : nat) (g : rng) :
  Forall (λ game, game ≠ JNull) catalog →
  ∃ (selected : list jsval) (g' : rng),
    selectGames catalog (Some (Z.of_nat count)) g = (Ok selected, g')
    ∧ Forall tagged_html5 selected
    ∧ selected ⊆+ catalog
    ∧ (length selected ≤ count)%nat
    ∧ length selected = Nat.min count (eligibleCount catalog).
Proof.
  intros Hrecords. unfold selectGames.
  rewrite (filter_games_eligible catalog Hrecords).
  pose proof (shuffle_perm (List.filter eligible catalog) g) as Hperm.
  destruct (shuffle (List.filter eligible catalog) g) as [shuffled g'].
  simpl in Hperm. exists (take count shuffled), g'.
  assert (Hslice : slice0 shuffled (Some (Z.of_nat count)) = take count shuffled).
  { unfold slice0. destruct (Z.ltb_spec (Z.of_nat count) 0); [lia|].
    by rewrite Nat2Z.id. }
  rewrite Hslice. split; [done|].
  split; [|split; [|split]].
  - apply Forall_take. rewrite Hperm. apply Forall_forall.
    intros game Hin. apply eligible_tagged.
    apply list_elem_of_In, filter_In in Hin. tauto.
  - transitivity shuffled; [apply sublist_submseteq, sublist_take|].
    rewrite Hperm. apply filter_submseteq.
  - rewrite length_take. lia.
  - rewrite length_take, Hperm. done.
Qed.

Lemma selectGames_html5_min_count_witness :
  ∃ (selected : list jsval) (g' : rng),
    selectGames (catalog_of (sample_catalog 4)) (Some (Z.of_nat 6)) sample_draw
      = (Ok selected, g')
    ∧ Forall tagged_html5 selected
    ∧ selected ⊆+ catalog_of (sample_catalog 4)
    ∧ (length selected ≤ 6)%nat
    ∧ length selected = Nat.min 6 (eligibleCount (catalog_of (sample_catalog 4))).
Proof.
  apply (selectGames_html5_min_count (catalog_of (sample_catalog 4)) 6 sample_draw).
  vm_compute. repeat constructor; discriminate.
Defined.

(** ** Site numbers and names *)

Lemma all_digits_app (s1 s2 : string) :
  all_digits (s1 +:+ s2) = all_digits s1 && all_digits s2.
Proof.
  induction s1 as [|c s1 IH]; [done|].
  rewrite string_app_cons. simpl. by rewrite IH, andb_assoc.
Qed.

Lemma all_digits_last (s : string) :
  s ≠ "" → all_digits s = true → last_is_digit s = true.
Proof.
  induction s as [|c s IH]; [done|]. intros _ Hall.
  simpl in Hall. apply andb_prop in Hall as [Hc Hs].
  destruct s as [|c' s']; [done|].
  change (last_is_digit (String c' s') = true). by apply IH.
Qed.

(** The regular expression [/(\d+)$/] captures the trailing digit run. *)
Lemma match_trailing_digits_spec (name stem digits : string) :
  trailing_integer name stem digits → match_trailing_digits name = Some digits.
Proof.
  intros (-> & Hne & Hdigits & Hstem).
  induction stem as [|c stem IH].
  - destruct digits as [|d digits]; [done|].
    change ((if all_digits (String d digits) then Some (String d digits)
             else match_trailing_digits digits) = Some (String d digits)).
    by rewrite Hdigits.
  - rewrite string_app_cons.
    change ((if all_digits (String c (stem +:+ digits))
             then Some (String c (stem +:+ digits))
             else match_trailing_digits (stem +:+ digits)) = Some digits).
    assert (Hnot : all_digits (String c (stem +:+ digits)) = false).
    { rewrite <- string_app_cons, all_digits_app.
      destruct (all_digits (String c stem)) eqn:Hall; [|done].
      apply all_digits_last in Hall; [congruence|done]. }
    rewrite Hnot. apply IH.
    destruct stem as [|c' stem']; [done|]. exact Hstem.
Qed.

Lemma parseInt_from_decimal (acc : Z) (digits : string) :
  parseInt_from acc digits
  = acc * 10 ^ Z.of_nat (String.length digits) + decimal_value digits.
Proof.
  revert acc. induction digits as [|c digits IH]; intros acc.
  - simpl. lia.
  - cbn [parseInt_from decimal_value String.length]. rewrite IH.
    rewrite Nat2Z.inj_succ, Z.pow_succ_r by lia. lia.
Qed.

Lemma parseInt_decimal (digits : string) : parseInt digits = decimal_value digits.
Proof. unfold parseInt. rewrite parseInt_from_decimal. lia. Qed.

(** Only the trailing digit run, read as a decimal numeral, counts. *)
Lemma extractSiteNumber_trailing (name stem digits : string) :
  trailing_integer name stem digits →
  extractSiteNumber name = Ok (decimal_value digits).
Proof.
  intros Ht. unfold extractSiteNumber.
  by rewrite (match_trailing_digits_spec _ _ _ Ht), parseInt_decimal.
Qed.

Lemma match_trailing_digits_None (name : string) :
  match_trailing_digits name = None → last_is_digit name = false.
Proof.
  induction name as [|c name IH]; [done|].
  change ((if all_digits (String c name) then Some (String c name)
           else match_trailing_digits name) = None → last_is_digit (String c name) = false).
  destruct (all_digits (String c name)) eqn:Hall; [done|]. intros Hnone.
  destruct name as [|c' name'].
  - simpl in Hall. rewrite andb_true_r in Hall. exact Hall.
  - by apply IH.
Qed.

(** A name that does not end in a digit has no site number. *)
Lemma extractSiteNumber_no_digits (name : string) :
  last_is_digit name = false → extractSiteNumber name = Err (NoSiteNumber name).
Proof.
  intros Hlast. unfold extractSiteNumber.
  destruct (match_trailing_digits name) as [digits|] eqn:Hm; [|done].
  exfalso. revert Hlast Hm. induction name as [|c name IH]; [done|].
  change (last_is_digit (String c name) = false →
          (if all_digits (String c name) then Some (String c name)
           else match_trailing_digits name) = Some digits → False).
  intros Hlast. destruct (all_digits (String c name)) eqn:Hall.
  - apply all_digits_last in Hall; [congruence|done].
  - destruct name as [|c' name']; [done|]. by apply IH.
Qed.

(** A name the prompt accepts ends in [site] and a digit run, so it has
    a site number. *)
Lemma test_site_digits_trailing (input : string) :
  test_site_digits input = true →
  ∃ stem digits, trailing_integer input (stem +:+ "site") digits.
Proof.
  induction input as [|c input IH].
  - discriminate.
  - cbn [test_site_digits]. intros Htest. apply orb_prop in Htest as [Hhere|Hlater].
    + destruct (strip_prefix "site" (String c input)) as [rest|] eqn:Hp; [|done].
      apply strip_prefix_spec in Hp. apply andb_prop in Hhere as [Hne Hdigits].
      exists "", rest. split; [exact Hp|]. split; [|by split].
      intros ->. discriminate Hne.
    + destruct (IH Hlater) as (stem & digits & -> & Hne & Hdigits & Hlast).
      exists (String c stem), digits. split; [done|]. split; [done|]. split; [done|].
      clear -Hlast. rewrite string_app_cons.
      change (last_is_digit (String c (stem +:+ "site")))
        with (match stem +:+ "site" with
              | "" => is_digit c
              | String _ _ => last_is_digit (stem +:+ "site")
              end).
      destruct (stem +:+ "site") eqn:Hs; [|exact Hlast].
      destruct stem; discriminate Hs.
Qed.

Example extractSiteNumber_site47 : extractSiteNumber "site47" = Ok 47.
Proof. reflexivity. Qed.

Example extractSiteNumber_leading_zeros : extractSiteNumber "game007" = Ok 7.
Proof. reflexivity. Qed.

Example sequential_names_007 :
  sequential_names (decimal_value "007") 3 = ["site7"; "site8"; "site9"].
Proof. reflexivity. Qed.

(** ** The site block and its replacement *)

(** The match of the regular expression runs from the first
    [const site = {] to the first [};] after it: when the pattern fails
    at the first opening it fails at every later one, since a closing
    after a later opening is also after the first. *)
Lemma match_site_block_cuts (content : string) :
  match_site_block content
  = match split_at_first "const site = {" content with
    | None => None
    | Some (before, rest) =>
        match split_at_first "};" rest with
        | None => None
        | Some (body, after) => Some (before, body, after)
        end
    end.
Proof.
  induction content as [|c content IH].
  - reflexivity.
  - cbn [match_site_block]. rewrite (split_at_first_eq _ (String c content)).
    unfold lazy_any_then.
    destruct (strip_prefix "const site = {" (String c content)) as [rest|] eqn:Hp.
    + destruct (split_at_first "};" rest) as [[body after]|] eqn:Hclose; [done|].
      rewrite IH.
      destruct (split_at_first "const site = {" content) as [[before' rest']|] eqn:Hopen';
        [|done].
      destruct (split_at_first "};" rest') as [[body' after']|] eqn:Hclose'; [|done].
      exfalso. apply (split_at_first_None _ _ Hclose).
      apply strip_prefix_spec in Hp.
      apply split_at_first_sound in Hopen', Hclose'.
      destruct (string_app_eq_prefix "const site = {" rest
                  (String c before' +:+ "const site = {" +:+ body') ("};" +:+ after'))
        as (y' & _ & Hrest).
      * rewrite <- Hp, Hopen', Hclose'.
        by rewrite string_app_cons, <- !string_app_assoc.
      * rewrite string_app_cons. cbn [String.length].
        rewrite !string_app_length. simpl. lia.
      * by exists y', after'.
    + rewrite IH.
      destruct (split_at_first "const site = {" content) as [[before' rest']|]; [|done].
      by destruct (split_at_first "};" rest') as [[body' after']|].
Qed.

(** The regular expression matches exactly when the text has an opening
    [const site = {] with a closing [};] after it, and then the match is
    the leftmost opening up to the first closing after it. *)
Lemma match_site_block_Some (content before body after : string) :
  match_site_block content = Some (before, body, after) →
  content = before +:+ "const site = {" +:+ body +:+ "};" +:+ after
  ∧ (∀ before' rest', content = before' +:+ "const site = {" +:+ rest' →
       (String.length before ≤ String.length before')%nat)
  ∧ (∀ body' after', body +:+ "};" +:+ after = body' +:+ "};" +:+ after' →
       (String.length body ≤ String.length body')%nat).
Proof.
  rewrite match_site_block_cuts.
  destruct (split_at_first "const site = {" content) as [[b rest]|] eqn:Hopen; [|done].
  destruct (split_at_first "};" rest) as [[bd af]|] eqn:Hclose; [|done].
  intros [= <- <- <-].
  pose proof (split_at_first_sound _ _ _ _ Hopen) as Hcontent.
  pose proof (split_at_first_sound _ _ _ _ Hclose) as Hrest.
  split; [by rewrite Hcontent, Hrest|]. split.
  - intros before' rest' Hc.
    destruct (split_at_first_complete _ _ _ _ Hc) as (b' & r' & Hs & Hlen).
    rewrite Hopen in Hs. by injection Hs as <- <-.
  - intros body' after' Hb. rewrite <- Hrest in Hb.
    destruct (split_at_first_complete _ _ _ _ Hb) as (b' & r' & Hs & Hlen).
    rewrite Hclose in Hs. by injection Hs as <- <-.
Qed.

Lemma match_site_block_complete (content : string) :
  has_site_block content →
  ∃ before body after, match_site_block content = Some (before, body, after).
Proof.
  intros (a & b & c & Hcontent). rewrite match_site_block_cuts.
  destruct (split_at_first_complete "const site = {" content a (b +:+ "};" +:+ c) Hcontent)
    as (before & rest & Hopen & Hlen).
  rewrite Hopen.
  pose proof (split_at_first_sound _ _ _ _ Hopen) as Hcut.
  assert (Hrest : ∃ y', rest = y' +:+ "};" +:+ c).
  { destruct (string_app_eq_prefix (before +:+ "const site = {") rest
                (a +:+ "const site = {" +:+ b) ("};" +:+ c)) as (y' & _ & Hr).
    - rewrite <- !string_app_assoc. by rewrite <- Hcut, Hcontent.
    - rewrite !string_app_length. lia.
    - by exists y'. }
  destruct Hrest as (y' & Hrest).
  destruct (split_at_first_complete "};" rest y' c Hrest) as (body & after & Hclose & _).
  rewrite Hclose. by exists before, body, after.
Qed.

Lemma match_site_block_None (content : string) :
  ¬ has_site_block content → match_site_block content = None.
Proof.
  intros Hnone.
  destruct (match_site_block content) as [[[before body] after]|] eqn:Hm; [|done].
  destruct (match_site_block_Some _ _ _ _ Hm) as [Hcontent _].
  exfalso. apply Hnone. by exists before, body, after.
Qed.

(** A replacement text without a dollar sign stands for itself. *)
Lemma getSubstitution_dollar_free (matched before after replacement : string) :
  dollar_free replacement = true →
  getSubstitution matched before after replacement = replacement.
Proof.
  induction replacement as [|c rest IH]; [done|].
  unfold dollar_free. cbn [string_forall getSubstitution].
  intros Hfree. apply andb_prop in Hfree as [Hc Hrest].
  apply negb_true_iff in Hc. rewrite Hc. f_equal. by apply IH.
Qed.

Lemma replace_site_block_literal (content replacement before body after : string) :
  match_site_block content = Some (before, body, after) →
  dollar_free replacement = true →
  replace_site_block content replacement = before +:+ replacement +:+ after.
Proof.
  intros Hm Hfree. unfold replace_site_block. rewrite Hm.
  by rewrite getSubstitution_dollar_free.
Qed.

(** A dollar sign in the replacement text is a pattern of [replace]. *)
Example replace_site_block_dollar_patterns :
  replace_site_block "a; const site = { x: 1 }; b" "<$&|$$>"
  = "a; <const site = { x: 1 };|$> b".
Proof. reflexivity. Qed.

Lemma valid_prefix_dollar_free (len : nat) (p : string) :
  valid_prefix len p → dollar_free p = true.
Proof.
  intros [_ Hall]. unfold dollar_free.
  apply (string_forall_impl is_lower_or_digit); [|exact Hall].
  intros c. unfold is_lower_or_digit.
  destruct (Nat.eqb_spec (nat_of_ascii c) 36) as [->|]; [done|done].
Qed.

(** Every planned domain is a base domain or a valid prefix, a dot and a
    base domain. *)
Lemma expand_domain_shape (bases : list string) (sc pl : nat) (g : rng) (d : string) :
  In d (expand bases sc pl g).1 →
  ∃ base, In base bases
    ∧ (d = base ∨ ∃ p, valid_prefix pl p ∧ d = p +:+ "." +:+ base).
Proof.
  destruct (expand_groups bases sc pl g) as (groups & -> & HF).
  induction HF as [|base group bases' groups' (ps & -> & _ & Hps) _ IH]; [done|].
  cbn [concat]. rewrite in_app_iff. intros [Hgroup|Hrest].
  - exists base. split; [by left|].
    destruct Hgroup as [<-|Hsub]; [by left|]. right.
    apply in_map_iff in Hsub as (p & <- & Hp). exists p. split; [|done].
    rewrite Forall_forall in Hps. apply Hps. by apply list_elem_of_In.
  - destruct (IH Hrest) as (base' & Hin & Hd). exists base'. split; [by right|done].
Qed.

Lemma config_domain_dollar_free (sc pl : nat) (g : rng) (d : string) :
  In d (expand (domains config) sc pl g).1 → dollar_free d = true.
Proof.
  intros Hd. apply expand_domain_shape in Hd as (base & Hbase & Hd).
  destruct Hbase as [<-|[]].
  destruct Hd as [->|(p & Hp & ->)]; [done|].
  unfold dollar_free. rewrite string_forall_app.
  fold (dollar_free p). by rewrite (valid_prefix_dollar_free _ _ Hp).
Qed.

(** With the repository's configuration the new site block holds no
    dollar sign unless the domain does. *)
Lemma newSiteObject_dollar_free (d : string) :
  dollar_free d = true → dollar_free (newSiteObject config d) = true.
Proof.
  intros Hd. unfold dollar_free in *.
  unfold newSiteObject, newSiteObject_lines, join_with, site_field, quoted.
  rewrite !string_forall_app, !Hd.
  vm_compute. reflexivity.
Qed.

(** The text of the template literal [newSiteObject] (l.315-327) with
    the values of [config.js] spelled out; [q] is the double quote and
    [nl] the line feed. *)
Lemma newSiteObject_text (d : string) :
  newSiteObject config d
  = let q := String "034"%char "" in
    let nl := String "010"%char "" in
    "const site = {" +:+ nl
    +:+ "  " +:+ q +:+ "name" +:+ q +:+ ": " +:+ q +:+ d +:+ q +:+ "," +:+ nl
    +:+ "  " +:+ q +:+ "title" +:+ q +:+ ": " +:+ q
        +:+ "game92 Games - Online HTML5 Games Platform" +:+ q +:+ "," +:+ nl
    +:+ "  " +:+ q +:+ "description" +:+ q +:+ ": " +:+ q
        +:+ "Discover endless entertainment with our collection of premium HTML5 games. Play instantly in your browser - featuring mind-bending puzzles, thrilling adventures, strategic challenges, and fast-paced action games for all ages."
        +:+ q +:+ "," +:+ nl
    +:+ "  " +:+ q +:+ "logo" +:+ q +:+ ": " +:+ q +:+ "/images/logo.png" +:+ q +:+ "," +:+ nl
    +:+ "  " +:+ q +:+ "favicon" +:+ q +:+ ": " +:+ q +:+ "/favicon.ico" +:+ q +:+ "," +:+ nl
    +:+ "  " +:+ q +:+ "keywords" +:+ q +:+ ": ["
        +:+ q +:+ "Web Games" +:+ q +:+ ","
        +:+ q +:+ "Interactive Entertainment" +:+ q +:+ ","
        +:+ q +:+ "Instant Play Games" +:+ q +:+ ","
        +:+ q +:+ "Cross-Platform Gaming" +:+ q +:+ ","
        +:+ q +:+ "Educational Games" +:+ q +:+ ","
        +:+ q +:+ "Multiplayer Games" +:+ q +:+ ","
        +:+ q +:+ "Retro Games" +:+ q +:+ ","
        +:+ q +:+ "Mobile-Friendly Games" +:+ q +:+ ","
        +:+ q +:+ "Gaming Portal" +:+ q +:+ ","
        +:+ q +:+ "Flash Alternative" +:+ q +:+ "]," +:+ nl
    +:+ "  " +:+ q +:+ "author" +:+ q +:+ ": " +:+ q +:+ d +:+ " Team" +:+ q +:+ "," +:+ nl
    +:+ "  " +:+ q +:+ "language" +:+ q +:+ ": " +:+ q +:+ "en" +:+ q +:+ "," +:+ nl
    +:+ "  " +:+ q +:+ "url" +:+ q +:+ ": " +:+ q +:+ "https://" +:+ d +:+ q +:+ "," +:+ nl
    +:+ "  " +:+ q +:+ "twitterCard" +:+ q +:+ ": " +:+ q
        +:+ "/images/summary_large_image.png" +:+ q +:+ "," +:+ nl
    +:+ "  " +:+ q +:+ "ogImage" +:+ q +:+ ": " +:+ q +:+ "/images/og-image.png" +:+ q +:+ ","
        +:+ nl
    +:+ "};".
Proof.
  cbv zeta.
  unfold newSiteObject, newSiteObject_lines, site_field, quoted.
  cbn [join_with].
  rewrite <- !string_app_assoc. reflexivity.
Qed.

(** * Further properties of the program *)

(** ** Printing and reading site numbers *)

Lemma parseInt_from_uint_acc (d : Decimal.uint) (acc : positive) :
  parseInt_from (Z.pos acc) (NilEmpty.string_of_uint d)
  = Z.pos (Pos.of_uint_acc d acc).
Proof.
  revert acc. induction d as [|d IH|d IH|d IH|d IH|d IH|d IH|d IH|d IH|d IH|d IH];
    intros acc; [reflexivity|..];
    cbn [NilEmpty.string_of_uint parseInt_from Pos.of_uint_acc];
    rewrite <- IH; f_equal; vm_compute (nat_of_ascii _); lia.
Qed.

Lemma parseInt_string_of_uint (d : Decimal.uint) :
  parseInt (NilEmpty.string_of_uint d) = Z.of_uint d.
Proof.
  unfold parseInt, Z.of_uint.
  induction d as [|d IH|d IH|d IH|d IH|d IH|d IH|d IH|d IH|d IH|d IH];
    [reflexivity|exact IH|..];
    cbn [NilEmpty.string_of_uint parseInt_from Pos.of_uint N2Z.inj Z.of_N];
    rewrite <- parseInt_from_uint_acc; f_equal.
Qed.

Lemma all_digits_string_of_uint (d : Decimal.uint) :
  all_digits (NilEmpty.string_of_uint d) = true.
Proof.
  induction d as [|d IH|d IH|d IH|d IH|d IH|d IH|d IH|d IH|d IH|d IH];
    [reflexivity|..]; cbn [NilEmpty.string_of_uint all_digits]; by rewrite IH.
Qed.

(** A number that is not negative prints as a non-empty run of digits
    that [parseInt] reads back. *)
Lemma number_to_string_digits (n : Z) :
  0 ≤ n →
  all_digits (number_to_string n) = true
  ∧ number_to_string n ≠ ""
  ∧ parseInt (number_to_string n) = n.
Proof.
  intros Hn. unfold number_to_string.
  pose proof (DecimalZ.of_to n) as Hround.
  destruct n as [|p|p]; [by vm_compute|..|lia].
  cbn [Z.to_int NilEmpty.string_of_int] in *. cbn [Z.of_int] in Hround.
  split; [apply all_digits_string_of_uint|].
  pose proof (parseInt_string_of_uint (Pos.to_uint p)) as Hparse.
  rewrite Hround in Hparse. split; [|exact Hparse].
  intros Hempty. rewrite Hempty in Hparse. discriminate Hparse.
Qed.

Lemma number_to_string_inj (n m : Z) :
  0 ≤ n → 0 ≤ m → number_to_string n = number_to_string m → n = m.
Proof.
  intros Hn Hm Heq.
  destruct (number_to_string_digits n Hn) as (_ & _ & <-).
  destruct (number_to_string_digits m Hm) as (_ & _ & <-).
  by rewrite Heq.
Qed.

(** X1. A generated name is itself a starting name with the same
    number: for every site number [n] with [0 <= n < 2^53] (the range in
    which the program's numbers are exact), [extractSiteNumber] of
    [site<n>] is [n]. So a later run may start from any name an earlier
    run has produced, and the numbering continues from it. *)
Theorem extractSiteNumber_site_name (n : Z) :
  0 ≤ n → n < 2 ^ 53 → extractSiteNumber (site_name n) = Ok n.
Proof.
  intros Hn _. destruct (number_to_string_digits n Hn) as (Hdigits & Hne & Hparse).
  rewrite (extractSiteNumber_trailing (site_name n) "site" (number_to_string n)).
  - by rewrite <- parseInt_decimal, Hparse.
  - by repeat split.
Qed.

Lemma extractSiteNumber_site_name_witness :
  0 ≤ 120 ∧ 120 < 2 ^ 53 ∧ extractSiteNumber (site_name 120) = Ok 120.
Proof.
  assert (H120 : 0 ≤ 120) by lia.
  assert (Hsafe : 120 < 2 ^ 53) by lia.
  split; [exact H120|].
  split; [exact Hsafe | exact (extractSiteNumber_site_name 120 H120 Hsafe)].
Defined.

(** The number is read from the digits only: a minus sign is not part of
    it. *)
Example extractSiteNumber_negative : extractSiteNumber (site_name (-1)) = Ok 1.
Proof. reflexivity. Qed.

(** X2. [extractSiteNumber] throws exactly for the names that do not end
    in a digit (the empty name among them), and the error carries the
    name. *)
Theorem extractSiteNumber_error_iff (siteName : string) :
  (extractSiteNumber siteName = Err (NoSiteNumber siteName)
   ↔ last_is_digit siteName = false)
  ∧ (is_Ok (extractSiteNumber siteName) = true ↔ last_is_digit siteName = true).
Proof.
  assert (Hcases : (last_is_digit siteName = false
                    ∧ extractSiteNumber siteName = Err (NoSiteNumber siteName))
                   ∨ (last_is_digit siteName = true
                      ∧ is_Ok (extractSiteNumber siteName) = true)).
  { destruct (last_is_digit siteName) eqn:Hlast.
    - right. split; [done|]. unfold extractSiteNumber.
      destruct (match_trailing_digits siteName) eqn:Hm; [done|].
      apply match_trailing_digits_None in Hm. congruence.
    - left. split; [done|]. by apply extractSiteNumber_no_digits. }
  destruct Hcases as [[Hlast Hr]|[Hlast Hr]]; rewrite Hlast.
  - rewrite Hr. simpl. split; split; done.
  - destruct (extractSiteNumber siteName); [|done]. split; split; done.
Qed.

Lemma sequential_names_NoDup (n : Z) (K : nat) :
  0 ≤ n → NoDup (sequential_names n K).
Proof.
  intros Hn. unfold sequential_names.
  apply NoDup_fmap_2_strong; [|apply NoDup_seq].
  intros i j _ _ Heq. injection Heq as Heq.
  apply number_to_string_inj in Heq; lia.
Qed.

(** ** Draws and permutations *)

Lemma shuffle_from_draws {A} (i : nat) (a : list A) (g : rng) (k : nat) :
  (shuffle_from i a g).2 k = g (k + i)%nat.
Proof.
  revert a g. induction i as [|i IH]; intros a g.
  - simpl. by rewrite Nat.add_0_r.
  - cbn [shuffle_from]. unfold random. rewrite IH. f_equal. lia.
Qed.

(** X3. The shuffle returns a permutation of its array, of the same
    length; it takes one draw per element after the first and no more
    (the oracle afterwards is the oracle before, [length - 1] draws
    later); an array with at most one element comes back as it is. *)
Theorem shuffle_permutation_draws {A} (a : list A) (g : rng) :
  (shuffle a g).1 ≡ₚ a
  ∧ length (shuffle a g).1 = length a
  ∧ (∀ k, (shuffle a g).2 k = g (k + (length a - 1))%nat)
  ∧ ((length a ≤ 1)%nat → (shuffle a g).1 = a).
Proof.
  split; [apply shuffle_perm|]. split; [apply shuffle_length|].
  split; [intros k; apply shuffle_from_draws|].
  intros Hshort. unfold shuffle.
  by replace (length a - 1)%nat with 0%nat by lia.
Qed.

(** X4. With exactly as many projects as the range holds integers, the
    plan succeeds and every integer of [gamesMin..gamesMax] is the count
    of exactly one project. *)
Theorem planCounts_uses_whole_range (gamesMin gamesMax : Z) (g : rng) :
  ∃ (counts : list Z) (g' : rng),
    planCounts gamesMin gamesMax (length (possibleCounts gamesMin gamesMax)) g
      = (Ok counts, g')
    ∧ length counts = length (possibleCounts gamesMin gamesMax)
    ∧ ∀ c, gamesMin ≤ c ≤ gamesMax →
        ∃ siteIndex,
          gamesCount_at counts siteIndex = Some c
          ∧ ∀ other, gamesCount_at counts other = Some c → other = siteIndex.
Proof.
  set (total := length (possibleCounts gamesMin gamesMax)).
  assert (Hlen : (length (possibleCounts gamesMin gamesMax) <? total)%nat = false)
    by apply Nat.ltb_irrefl.
  pose proof (planCounts_ok gamesMin gamesMax total g Hlen) as Hplan.
  destruct (planCounts_perm _ _ _ _ _ _ Hplan) as [Hperm _].
  eexists _, _. split; [exact Hplan|]. split; [by rewrite Hperm|].
  intros c Hc.
  assert (Hin : c ∈ (shuffle (possibleCounts gamesMin gamesMax) g).1).
  { rewrite Hperm. apply elem_of_seqZ. lia. }
  apply list_elem_of_lookup in Hin as [i Hi].
  exists i. split; [exact Hi|]. intros j Hj.
  assert (Hnodup : NoDup (shuffle (possibleCounts gamesMin gamesMax) g).1).
  { rewrite Hperm. apply NoDup_seqZ. }
  exact (NoDup_lookup _ _ _ _ Hnodup Hj Hi).
Qed.

Lemma generateRandomPrefix_from_draws (n : nat) (result : string) (g : rng) (k : nat) :
  (generateRandomPrefix_from n result g).2 k = g (k + n)%nat.
Proof.
  revert result g. induction n as [|n IH]; intros result g.
  - simpl. by rewrite Nat.add_0_r.
  - cbn [generateRandomPrefix_from]. unfold random. rewrite IH. f_equal. lia.
Qed.

Lemma push_subdomains_draws (n : nat) (base : string) (pl : nat)
    (allDomains : list string) (g : rng) (k : nat) :
  (push_subdomains n base pl allDomains g).2 k = g (k + n * pl)%nat.
Proof.
  revert allDomains g. induction n as [|n IH]; intros allDomains g.
  - simpl. by rewrite Nat.add_0_r.
  - cbn [push_subdomains].
    pose proof (generateRandomPrefix_from_draws pl "" g) as Hdraws.
    fold (generateRandomPrefix pl g) in Hdraws.
    destruct (generateRandomPrefix pl g) as [prefix g1]. simpl in Hdraws.
    rewrite IH, Hdraws. f_equal. lia.
Qed.

Lemma push_domains_draws (bases : list string) (sc pl : nat)
    (allDomains : list string) (g : rng) (k : nat) :
  (push_domains bases sc pl allDomains g).2 k
  = g (k + length bases * (sc * pl))%nat.
Proof.
  revert allDomains g. induction bases as [|base rest IH]; intros allDomains g.
  - simpl. by rewrite Nat.add_0_r.
  - cbn [push_domains].
    assert (Hstep : ∀ j,
      (if (0 <? sc)%nat
       then push_subdomains sc base pl (allDomains ++ [base]) g
       else ((allDomains ++ [base])%list, g)).2 j = g (j + sc * pl)%nat).
    { intros j. destruct (Nat.ltb_spec 0 sc) as [Hpos|Hzero].
      - apply push_subdomains_draws.
      - replace sc with 0%nat by lia. simpl. by rewrite Nat.add_0_r. }
    destruct (if (0 <? sc)%nat then _ else _) as [allDomains2 g1].
    simpl in Hstep. rewrite IH, Hstep. f_equal. simpl. lia.
Qed.

Lemma push_domains_no_subdomains (bases : list string) (pl : nat)
    (allDomains : list string) (g : rng) :
  push_domains bases 0 pl allDomains g = ((allDomains ++ bases)%list, g).
Proof.
  revert allDomains. induction bases as [|base rest IH]; intros allDomains.
  - simpl. by rewrite app_nil_r.
  - cbn [push_domains Nat.ltb Nat.leb]. rewrite IH. by rewrite <- app_assoc.
Qed.

(** X5. Planning the domains takes [prefixLength] draws per subdomain,
    that is [baseDomains.length * subdomainCount * prefixLength] in all;
    when no subdomain is asked for, the plan is the list of base domains
    and no draw is taken. *)
Theorem expand_draws (baseDomains : list string) (subdomainCount prefixLength : nat)
    (g : rng) :
  (∀ k, (expand baseDomains subdomainCount prefixLength g).2 k
        = g (k + length baseDomains * (subdomainCount * prefixLength))%nat)
  ∧ expand baseDomains 0 prefixLength g = (baseDomains, g).
Proof.
  split; [intros k; apply push_domains_draws|].
  unfold expand. by rewrite push_domains_no_subdomains.
Qed.

(** ** Rewriting a site configuration again *)

(** Where the first occurrence lies depends on the text up to its end
    only. *)
Lemma split_at_first_same_head (needle a r1 r2 : string) :
  split_at_first needle (a +:+ needle +:+ r1) = Some (a, r1) →
  split_at_first needle (a +:+ needle +:+ r2) = Some (a, r2).
Proof.
  induction a as [|c a IH].
  - intros _. change ("" +:+ needle +:+ r2) with (needle +:+ r2).
    rewrite split_at_first_eq.
    by rewrite (proj2 (strip_prefix_spec needle (needle +:+ r2) r2) eq_refl).
  - rewrite !string_app_cons, !(split_at_first_eq needle (String c _)).
    destruct (strip_prefix needle (String c (a +:+ needle +:+ r1))) eqn:Hp1; [done|].
    destruct (split_at_first needle (a +:+ needle +:+ r1)) as [[b1 t1]|] eqn:Hs1; [|done].
    intros [= -> ->]. rewrite (IH eq_refl).
    destruct (strip_prefix needle (String c (a +:+ needle +:+ r2))) as [t2|] eqn:Hp2;
      [|done].
    exfalso. apply strip_prefix_spec in Hp2.
    destruct (string_app_eq_prefix needle t2 (String c a +:+ needle) r2) as (y & Hy & _).
    { rewrite <- Hp2. by rewrite <- string_app_assoc, string_app_cons. }
    { rewrite string_app_length. simpl. lia. }
    assert (Hp1' : strip_prefix needle (String c (a +:+ needle +:+ r1)) = Some (y +:+ r1)).
    { apply strip_prefix_spec. rewrite <- string_app_cons.
      rewrite (string_app_assoc (String c a) needle r1), Hy.
      by rewrite <- string_app_assoc. }
    congruence.
Qed.

(** After a text without a semicolon, the first [};] is the one that
    follows it. *)
Lemma split_at_first_close (body after : string) :
  semicolon_free body = true →
  split_at_first "};" (body +:+ "};" +:+ after) = Some (body, after).
Proof.
  unfold semicolon_free. induction body as [|c body IH]; intros Hfree.
  - reflexivity.
  - simpl in Hfree. apply andb_prop in Hfree as [Hc Hfree].
    rewrite string_app_cons, split_at_first_eq, (IH Hfree).
    assert (Hnone : strip_prefix "};" (String c (body +:+ "};" +:+ after)) = None).
    { cbn [strip_prefix]. destruct (Ascii.eqb "}" c); [|done].
      destruct body as [|c' body'].
      - reflexivity.
      - rewrite string_app_cons. cbn [strip_prefix].
        simpl in Hfree. apply andb_prop in Hfree as [Hc' _].
        destruct (Ascii.eqb_spec ";" c') as [<-|]; [discriminate Hc'|done]. }
    by rewrite Hnone.
Qed.

(** The new block is an opening, a body without a semicolon and a
    closing. *)
Lemma newSiteObject_shape (d : string) :
  semicolon_free d = true →
  ∃ body, newSiteObject config d = "const site = {" +:+ body +:+ "};"
          ∧ semicolon_free body = true.
Proof.
  intros Hd.
  exists (newline
          +:+ join_with newline
                (removelast (tail (newSiteObject_lines config d)))
          +:+ newline).
  split.
  - unfold newSiteObject, newSiteObject_lines.
    cbn [join_with tail removelast]. by rewrite <- !string_app_assoc.
  - unfold semicolon_free in *. unfold newSiteObject_lines.
    cbn [join_with tail removelast]. unfold site_field, quoted.
    rewrite !string_forall_app, !Hd.
    vm_compute. reflexivity.
Qed.

Lemma config_domain_semicolon_free (sc pl : nat) (g : rng) (d : string) :
  In d (expand (domains config) sc pl g).1 → semicolon_free d = true.
Proof.
  intros Hd. apply expand_domain_shape in Hd as (base & Hbase & Hd).
  destruct Hbase as [<-|[]].
  destruct Hd as [->|(p & [_ Hp] & ->)]; [done|].
  unfold semicolon_free. rewrite string_forall_app.
  rewrite (string_forall_impl is_lower_or_digit _ p); [done| |exact Hp].
  intros c. unfold is_lower_or_digit.
  by destruct (Nat.eqb_spec (nat_of_ascii c) 59) as [->|].
Qed.

(** Once a block of the program's making is in place, it is the block
    the regular expression finds. *)
Lemma match_site_block_rewritten (content before body after d : string) :
  match_site_block content = Some (before, body, after) →
  semicolon_free d = true →
  ∃ body', newSiteObject config d = "const site = {" +:+ body' +:+ "};"
    ∧ match_site_block (before +:+ newSiteObject config d +:+ after)
      = Some (before, body', after).
Proof.
  intros Hm Hd.
  destruct (newSiteObject_shape d Hd) as (body' & Hshape & Hfree).
  exists body'. split; [exact Hshape|].
  rewrite match_site_block_cuts in Hm.
  destruct (split_at_first "const site = {" content) as [[b rest]|] eqn:Hopen; [|done].
  destruct (split_at_first "};" rest) as [[bd af]|] eqn:Hclose; [|done].
  injection Hm as -> -> ->.
  pose proof (split_at_first_sound _ _ _ _ Hopen) as Hcontent.
  rewrite Hcontent in Hopen.
  rewrite match_site_block_cuts, Hshape.
  replace (before +:+ ("const site = {" +:+ body' +:+ "};") +:+ after)
    with (before +:+ "const site = {" +:+ (body' +:+ "};" +:+ after))
    by (by rewrite <- !string_app_assoc).
  rewrite (split_at_first_same_head _ _ _ (body' +:+ "};" +:+ after) Hopen).
  by rewrite (split_at_first_close body' after Hfree).
Qed.

(** X6. Rewriting a site configuration that the program has already
    rewritten gives what rewriting the original gives: for two planned
    domains of the repository's configuration, replacing the site block
    for the first and then for the second yields the text that replacing
    it for the second alone yields. In particular the rewrite is
    idempotent. *)
Theorem replace_site_block_again
    (content d1 d2 : string) (subdomainCount prefixLength : nat) (g1 g2 : rng) :
  In d1 (expand (domains config) subdomainCount prefixLength g1).1 →
  In d2 (expand (domains config) subdomainCount prefixLength g2).1 →
  replace_site_block (replace_site_block content (newSiteObject config d1))
    (newSiteObject config d2)
  = replace_site_block content (newSiteObject config d2).
Proof.
  intros H1 H2.
  pose proof (newSiteObject_dollar_free d1 (config_domain_dollar_free _ _ _ _ H1)) as Hf1.
  pose proof (newSiteObject_dollar_free d2 (config_domain_dollar_free _ _ _ _ H2)) as Hf2.
  destruct (match_site_block content) as [[[before body] after]|] eqn:Hm.
  - rewrite (replace_site_block_literal content _ before body after Hm Hf1).
    destruct (match_site_block_rewritten content before body after d1 Hm
                (config_domain_semicolon_free _ _ _ _ H1)) as (body' & _ & Hm').
    rewrite (replace_site_block_literal _ _ before body' after Hm' Hf2).
    by rewrite (replace_site_block_literal content _ before body after Hm Hf2).
  - assert (Hsame : replace_site_block content (newSiteObject config d1) = content)
      by (unfold replace_site_block; by rewrite Hm).
    by rewrite Hsame.
Qed.

(** ** [endsWith] and [includes] *)

Lemma string_prefix_spec (p s : string) :
  String.prefix p s = true ↔ ∃ rest, s = p +:+ rest.
Proof.
  revert p. induction s as [|b s IH]; intros [|a p]; simpl.
  - split; [intros _; by exists ""|done].
  - split; [done|]. intros [rest Hrest]. discriminate Hrest.
  - split; [intros _; by exists (String b s)|done].
  - destruct (ascii_dec a b) as [->|Hne].
    + rewrite IH. split.
      * intros [rest ->]. by exists rest.
      * intros [rest Hrest]. rewrite string_app_cons in Hrest.
        injection Hrest as ->. by exists rest.
    + split; [done|]. intros [rest Hrest]. rewrite string_app_cons in Hrest.
      by injection Hrest as -> _.
Qed.

Lemma includes_spec (part s : string) :
  includes part s = true ↔ occurs_in part s.
Proof.
  induction s as [|c s IH].
  - cbn [includes]. rewrite orb_false_r, string_prefix_spec. split.
    + intros [rest Hrest]. by exists "", rest.
    + intros (before & after & Hs). destruct before; [by exists after|done].
  - cbn [includes]. rewrite orb_true_iff, string_prefix_spec, IH. split.
    + intros [[rest Hrest]|(before & after & ->)].
      * by exists "", rest.
      * by exists (String c before), after.
    + intros (before & after & Hs). destruct before as [|c' before].
      * left. by exists after.
      * right. rewrite string_app_cons in Hs. injection Hs as -> ->.
        by exists before, after.
Qed.

Lemma endsWith_spec (suffix s : string) :
  endsWith suffix s = true ↔ ∃ before, s = before +:+ suffix.
Proof.
  induction s as [|c s IH].
  - cbn [endsWith]. rewrite orb_false_r, String.eqb_eq. split.
    + intros ->. by exists "".
    + intros [before Hs]. destruct before; [done|discriminate Hs].
  - cbn [endsWith]. rewrite orb_true_iff, String.eqb_eq, IH. split.
    + intros [->|[before ->]]; [by exists ""|by exists (String c before)].
    + intros [before Hs]. destruct before as [|c' before].
      * by left.
      * right. rewrite string_app_cons in Hs. injection Hs as -> ->.
        by exists before.
Qed.

(** ** A catalog with too few eligible games *)

(** X16. When the catalog (of game records) holds no more eligible
    entries than the count asked for, or the count is [undefined], the
    selection is all the eligible entries, in shuffled order: nothing is
    dropped and nothing is repeated. It takes one draw per eligible
    entry after the first. *)
Theorem selectGames_short_catalog
    (catalog : list jsval) (gamesCount : option Z) (g : rng) :
  Forall (λ game, game ≠ JNull) catalog →
  match gamesCount with
  | None => True
  | Some count => Z.of_nat (eligibleCount catalog) ≤ count
  end →
  ∃ (selected : list jsval) (g' : rng),
    selectGames catalog gamesCount g = (Ok selected, g')
    ∧ selected ≡ₚ List.filter eligible catalog
    ∧ ∀ k, g' k = g (k + (eligibleCount catalog - 1))%nat.
Proof.
  intros Hrecords Hcount. unfold selectGames.
  rewrite (filter_games_eligible catalog Hrecords).
  pose proof (shuffle_perm (List.filter eligible catalog) g) as Hperm.
  pose proof (shuffle_from_draws (length (List.filter eligible catalog) - 1)
                (List.filter eligible catalog) g) as Hdraws.
  fold (shuffle (List.filter eligible catalog) g) in Hdraws.
  destruct (shuffle (List.filter eligible catalog) g) as [shuffled g'].
  simpl in Hperm, Hdraws. exists shuffled, g'.
  split; [|split; [exact Hperm|exact Hdraws]].
  f_equal. f_equal. destruct gamesCount as [count|]; [|done].
  unfold slice0. destruct (Z.ltb_spec count 0) as [Hneg|_]; [lia|].
  apply take_ge. rewrite Hperm. unfold eligibleCount in Hcount. lia.
Qed.

Lemma selectGames_short_catalog_witness :
  Z.of_nat (eligibleCount (catalog_of (sample_catalog 4))) ≤ 6
  ∧ ∃ (selected : list jsval) (g' : rng),
      selectGames (catalog_of (sample_catalog 4)) (Some 6) sample_draw = (Ok selected, g')
      ∧ selected ≡ₚ List.filter eligible (catalog_of (sample_catalog 4)).
Proof.
  assert (Hshort : Z.of_nat (eligibleCount (catalog_of (sample_catalog 4))) ≤ 6)
    by (vm_compute; discriminate).
  split; [exact Hshort|].
  destruct (selectGames_short_catalog (catalog_of (sample_catalog 4)) (Some 6) sample_draw
              ltac:(vm_compute; repeat constructor; discriminate) Hshort)
    as (selected & g' & Hsel & Hperm & _).
  by exists selected, g'.
Defined.

(** ** Site numbers are not negative *)

Lemma match_trailing_digits_all_digits (s digits : string) :
  match_trailing_digits s = Some digits → all_digits digits = true.
Proof.
  induction s as [|c s IH]; [done|].
  change ((if all_digits (String c s) then Some (String c s)
           else match_trailing_digits s) = Some digits → all_digits digits = true).
  destruct (all_digits (String c s)) eqn:Hall; [by intros [= <-]|exact IH].
Qed.

Lemma decimal_value_nonneg (digits : string) :
  all_digits digits = true → 0 ≤ decimal_value digits.
Proof.
  induction digits as [|c digits IH]; [done|].
  cbn [all_digits decimal_value]. intros Hall.
  apply andb_prop in Hall as [Hc Hrest]. specialize (IH Hrest).
  unfold is_digit in Hc. apply andb_prop in Hc as [Hlow _].
  apply Nat.leb_le in Hlow.
  assert (0 ≤ 10 ^ Z.of_nat (String.length digits)) by (apply Z.pow_nonneg; lia).
  nia.
Qed.

Lemma extractSiteNumber_nonneg (siteName : string) (n : Z) :
  extractSiteNumber siteName = Ok n → 0 ≤ n.
Proof.
  unfold extractSiteNumber.
  destruct (match_trailing_digits siteName) as [digits|] eqn:Hm; [|done].
  intros [= <-]. rewrite parseInt_decimal.
  apply decimal_value_nonneg. by apply (match_trailing_digits_all_digits siteName).
Qed.

(** ** Properties that hold on every machine *)

Section HostProperties.
Context `{PathOps} {St : Type} `{Host St}.
Variable cfg : Config.
Variable script_dir : string.

Abbreviation root := (workspaceRoot script_dir).

(** *** Conflict checking *)

Lemma conflicts_from_spec (n i : nat) (s : St) (baseNumber : Z)
    (conflicts : list string) :
  conflicts_from script_dir n i s baseNumber conflicts
  = (conflicts
     ++ List.filter (λ name, pathExists s (path_join root name))
          (map (λ k, "site" +:+ number_to_string (baseNumber + Z.of_nat k)) (seq i n)))%list.
Proof.
  revert i conflicts. induction n as [|n IH]; intros i conflicts.
  - simpl. by rewrite app_nil_r.
  - cbn [conflicts_from seq map List.filter]. rewrite IH. unfold site_name.
    destruct (pathExists s _); [by rewrite <- app_assoc|done].
Qed.

(** C7. For a starting name with trailing integer [n] and a count [K]
    with [n + K <= 2^53] (so that every number the check computes is
    exact), the conflict check returns, in order, exactly those of the
    [K] names [site(n)], ..., [site(n+K-1)] for which the workspace has
    an entry; it returns the empty list exactly when none of them
    exists. It returns names only: the machine is an argument and not a
    result. *)
Theorem validateProjectNames_existing_subset
    (s : St) (startingName stem digits : string) (K : nat) :
  trailing_integer startingName stem digits →
  decimal_value digits + Z.of_nat K ≤ 2 ^ 53 →
  validateProjectNames script_dir s startingName K
  = Ok (List.filter (λ name, pathExists s (path_join root name))
          (sequential_names (decimal_value digits) K))
  ∧ (validateProjectNames script_dir s startingName K = Ok []
     ↔ ∀ name, In name (sequential_names (decimal_value digits) K) →
         pathExists s (path_join root name) = false).
Proof.
  intros Ht _.
  assert (Heq : validateProjectNames script_dir s startingName K
    = Ok (List.filter (λ name, pathExists s (path_join root name))
            (sequential_names (decimal_value digits) K))).
  { unfold validateProjectNames.
    rewrite (extractSiteNumber_trailing _ _ _ Ht). simpl.
    by rewrite conflicts_from_spec. }
  split; [exact Heq|]. rewrite Heq. split.
  - intros [= Hnil] name Hin.
    destruct (pathExists s (path_join root name)) eqn:Hex; [|done].
    assert (Hmem : In name (List.filter (λ name, pathExists s (path_join root name))
                             (sequential_names (decimal_value digits) K))).
    { apply filter_In. by split. }
    rewrite Hnil in Hmem. destruct Hmem.
  - generalize (sequential_names (decimal_value digits) K).
    intros names Hnone. f_equal.
    induction names as [|name names IH]; [done|].
    simpl. rewrite (Hnone name) by (by left).
    apply IH. intros name' Hin. apply Hnone. by right.
Qed.

(** *** Locating the template *)

Lemma locate_candidates_first (startDir templateName : string) :
  head (locate_candidates startDir templateName)
  = Some (path_join startDir templateName).
Proof. reflexivity. Qed.

(** C4. [findTemplatePath] returns the first existing path among the
    candidates of [locate], in their order: [<level k>/templateName] for
    the levels [k = 0, 1, ...] of the upward walk from the workspace
    root, the walk ending at the file-system root and after five levels
    at the latest, where level 0 is the workspace root itself, so that
    at most four ancestors are tried; then, if the walk has reached the
    file-system root, [templateName] inside [wjspark] next to the
    workspace root. Without an existing candidate the result is [None].
    So the workspace root is tried first; a walk that meets no
    file-system root tries exactly levels 0 to 4 and nothing else; and
    from a workspace root that is the file-system root the only
    candidates are that root and the sibling directory. *)
Theorem findTemplatePath_search_order (s : St) (startDir templateName : string) :
  findTemplatePath s startDir templateName = locate s startDir templateName
  ∧ (pathExists s (path_join startDir templateName) = true →
     findTemplatePath s startDir templateName
     = Some (path_join startDir templateName))
  ∧ ((∀ k, (k < 5)%nat → is_fs_root (ancestor k startDir) = false) →
     locate_candidates startDir templateName
     = map (λ k, path_join (ancestor k startDir) templateName) [0; 1; 2; 3; 4]%nat)
  ∧ (is_fs_root startDir = true →
     locate_candidates startDir templateName
     = [path_join startDir templateName;
        path_join (path_join (path_dirname startDir) "wjspark") templateName])
  ∧ (findTemplatePath s startDir templateName = None
     ↔ ∀ p, In p (locate_candidates startDir templateName) → pathExists s p = false).
Proof.
  assert (Hloc : findTemplatePath s startDir templateName
                 = locate s startDir templateName).
  { unfold findTemplatePath, locate, locate_candidates, root_reached,
      visited_levels, level_visited, is_fs_root, ancestor.
    cbn [findTemplatePath_from seq List.filter forallb existsb map Nat.iter negb andb].
    repeat match goal with
           | |- context [String.eqb ?a ?b] =>
               destruct (String.eqb a b) eqn:?; cbn
           end;
    repeat match goal with
           | |- context [pathExists s ?p] =>
               destruct (pathExists s p) eqn:?; cbn
           end; congruence. }
  split; [exact Hloc|].
  split; [|split; [|split]].
  - intros Hex. unfold findTemplatePath. cbn [findTemplatePath_from].
    by rewrite Hex.
  - intros Hno.
    pose proof (Hno 0%nat ltac:(lia)) as Hr0. pose proof (Hno 1%nat ltac:(lia)) as Hr1.
    pose proof (Hno 2%nat ltac:(lia)) as Hr2. pose proof (Hno 3%nat ltac:(lia)) as Hr3.
    pose proof (Hno 4%nat ltac:(lia)) as Hr4.
    unfold locate_candidates, root_reached, visited_levels, level_visited.
    cbv [ancestor Nat.iter nat_rect] in *.
    cbn [seq List.filter forallb existsb map negb andb].
    rewrite ?Hr0, ?Hr1, ?Hr2, ?Hr3, ?Hr4. cbn.
    rewrite ?Hr0, ?Hr1, ?Hr2, ?Hr3, ?Hr4. reflexivity.
  - intros Hroot.
    unfold locate_candidates, root_reached, visited_levels, level_visited.
    cbv [ancestor Nat.iter nat_rect].
    cbn [seq List.filter forallb existsb map negb andb].
    rewrite Hroot. cbn [seq List.filter forallb existsb map negb andb orb app]. rewrite ?Hroot.
    cbn [seq List.filter forallb existsb map negb andb orb app]. reflexivity.
  - rewrite Hloc. unfold locate.
    generalize (locate_candidates startDir templateName). intros ps.
    induction ps as [|p ps IH]; [by split|]. simpl.
    destruct (pathExists s p) eqn:Hp.
    + split; [done|]. intros Hall. specialize (Hall p (or_introl eq_refl)). congruence.
    + rewrite IH. split.
      * intros Hall q [<-|Hq]; [done|by apply Hall].
      * intros Hall q Hq. apply Hall. by right.
Qed.



(** *** Steps that leave the list of generated sites alone *)

Lemma prog_bind_eval {A B} (m : prog St A) (f : A → prog St B) (w : world St) :
  prog_bind m f w
  = match m w with
    | (Ok a, w') => f a w'
    | (Err e, w') => (Err e, w')
    end.
Proof. reflexivity. Qed.

Lemma keeps_sites_bind {A B} (m : prog St A) (f : A → prog St B) :
  keeps_sites m → (∀ a, keeps_sites (f a)) → keeps_sites (prog_bind m f).
Proof.
  intros Hm Hf w. unfold prog_bind. specialize (Hm w).
  destruct (m w) as [[a|e] w1]; simpl in *; [|done].
  by rewrite Hf.
Qed.

Lemma keeps_sites_try_catch {A} (m : prog St A) (handler : error → prog St A) :
  keeps_sites m → (∀ e, keeps_sites (handler e)) → keeps_sites (try_catch m handler).
Proof.
  intros Hm Hh w. unfold try_catch. specialize (Hm w).
  destruct (m w) as [[a|e] w1]; simpl in *; [done|].
  by rewrite Hh.
Qed.

Lemma keeps_sites_ret {A} (a : A) : keeps_sites (prog_ret (St:=St) a).
Proof. done. Qed.

Lemma keeps_sites_throw {A} (e : error) : keeps_sites (throw (St:=St) (A:=A) e).
Proof. done. Qed.

Lemma keeps_sites_lift_result {A} (r : result A) : keeps_sites (lift_result (St:=St) r).
Proof. done. Qed.

Lemma keeps_sites_read_host {A} (f : St → A) : keeps_sites (read_host f).
Proof. done. Qed.

Lemma keeps_sites_query_host {A} (f : St → result A) : keeps_sites (query_host f).
Proof. done. Qed.

Lemma keeps_sites_call_host (f : St → result St) : keeps_sites (call_host f).
Proof. intros w. unfold call_host. by destruct (f (host w)). Qed.

Lemma keeps_sites_with_random {A} (f : rng → A * rng) :
  keeps_sites (with_random (St:=St) f).
Proof. intros w. unfold with_random. by destruct (f (oracle w)). Qed.

Lemma keeps_sites_with_random_result {A} (f : rng → result A * rng) :
  keeps_sites (with_random_result (St:=St) f).
Proof. intros w. unfold with_random_result. by destruct (f (oracle w)). Qed.

Create HintDb keeps discriminated.
#[local] Hint Resolve keeps_sites_ret keeps_sites_throw keeps_sites_lift_result
  keeps_sites_read_host keeps_sites_query_host keeps_sites_call_host
  keeps_sites_with_random keeps_sites_with_random_result : keeps.
#[local] Hint Extern 2 (keeps_sites (prog_bind _ _)) =>
  apply keeps_sites_bind; [|intros ?] : keeps.
#[local] Hint Extern 2 (keeps_sites (try_catch _ _)) =>
  apply keeps_sites_try_catch; [|intros ?] : keeps.

Lemma updateSiteConfig_keeps_sites (projectPath projectName domain : string) :
  keeps_sites (updateSiteConfig cfg projectPath projectName domain).
Proof. unfold updateSiteConfig. auto with keeps. Qed.

Lemma processGamesJson_keeps_sites (projectPath : string) (gamesCount : option Z) :
  keeps_sites (processGamesJson projectPath gamesCount).
Proof.
  unfold processGamesJson.
  apply keeps_sites_try_catch; [|auto with keeps].
  apply keeps_sites_bind; [auto with keeps|intros gamesData].
  apply keeps_sites_bind; [auto with keeps|intros games].
  apply keeps_sites_bind; [|auto with keeps].
  destruct games as [[]|]; auto with keeps.
Qed.

(** Catalog failures are warnings: [processGamesJson] never throws. *)
Lemma processGamesJson_never_throws (projectPath : string) (gamesCount : option Z)
    (w : world St) :
  (processGamesJson projectPath gamesCount w).1 = Ok tt.
Proof.
  unfold processGamesJson, try_catch.
  by destruct (prog_bind _ _ w) as [[[]|e] w1].
Qed.

(** *** The sites a run creates *)

Lemma planned_sites_cons (n : Z) (newDomain : string) (rest : list string) :
  planned_sites root n (newDomain :: rest)
  = {| projectName := site_name n;
       path := path_join root (site_name n);
       domain := newDomain |} :: planned_sites root (n + 1) rest.
Proof.
  unfold planned_sites, site_name. rewrite imap_cons. f_equal.
  - by rewrite Z.add_0_r.
  - apply imap_ext. intros i d _. simpl.
    by replace (n + Z.of_nat (S i)) with (n + 1 + Z.of_nat i) by lia.
Qed.

(** The loop appends one entry per domain, in order and with consecutive
    site numbers, until it ends or throws. *)
Lemma createSites_sites (allDomains : list string) (templatePath : string)
    (counts : list Z) (siteNumberCounter : Z) (siteIndex : nat) (w : world St) :
  ∃ k : nat,
    (k ≤ length allDomains)%nat
    ∧ generatedSites
        (createSites cfg script_dir allDomains templatePath counts
           siteNumberCounter siteIndex w).2
      = (generatedSites w
         ++ take k (planned_sites root (siteNumberCounter + 1) allDomains))%list
    ∧ ((createSites cfg script_dir allDomains templatePath counts
          siteNumberCounter siteIndex w).1 = Ok tt → k = length allDomains).
Proof.
  revert siteNumberCounter siteIndex w.
  induction allDomains as [|newDomain rest IH]; intros c idx w.
  - exists 0%nat. simpl. by rewrite app_nil_r.
  - assert (Hstop : ∀ (e : error) (w1 : world St),
      generatedSites w1 = generatedSites w →
      ∃ k : nat, (k ≤ length (newDomain :: rest))%nat
        ∧ generatedSites (Err (A:=unit) e, w1).2
          = (generatedSites w ++ take k (planned_sites root (c + 1) (newDomain :: rest)))%list
        ∧ ((Err (A:=unit) e, w1).1 = Ok tt → k = length (newDomain :: rest))).
    { intros e w1 Hs. exists 0%nat. simpl. rewrite app_nil_r.
      split; [lia|]. split; [done|discriminate]. }
    cbn [createSites]. rewrite prog_bind_eval. unfold read_host.
    destruct (pathExists (host w) _); [by apply Hstop|].
    rewrite prog_bind_eval.
    pose proof (keeps_sites_call_host
      (λ s, copy s templatePath (path_join root (site_name (c + 1)))
              (copy_filter)) w) as Hcopy.
    destruct (call_host _ w) as [[[]|e] w1]; simpl in Hcopy; [|by apply Hstop].
    rewrite prog_bind_eval.
    pose proof (updateSiteConfig_keeps_sites
      (path_join root (site_name (c + 1))) (site_name (c + 1)) newDomain w1) as Hupd.
    destruct (updateSiteConfig _ _ _ _ w1) as [[[]|e] w2]; simpl in Hupd;
      [|apply Hstop; congruence].
    rewrite prog_bind_eval.
    pose proof (processGamesJson_keeps_sites
      (path_join root (site_name (c + 1))) (gamesCount_at counts idx) w2) as Hgames.
    pose proof (processGamesJson_never_throws
      (path_join root (site_name (c + 1))) (gamesCount_at counts idx) w2) as Hok.
    destruct (processGamesJson _ _ w2) as [r w3]; simpl in Hgames, Hok. subst r.
    rewrite prog_bind_eval. unfold push_site.
    destruct (IH (c + 1) (S idx)
      (World (host w3) (oracle w3)
         (generatedSites w3
          ++ [{| projectName := site_name (c + 1);
                 path := path_join root (site_name (c + 1));
                 domain := newDomain |}])))
      as (k & Hk & Hsites & Hall).
    exists (S k). split; [simpl; lia|].
    rewrite planned_sites_cons. split.
    + rewrite Hsites. simpl. rewrite Hgames, Hupd, Hcopy.
      by rewrite <- app_assoc.
    + intros Hdone. by rewrite (Hall Hdone).
Qed.

Lemma sequential_names_succ (n : Z) (K : nat) :
  sequential_names n (S K) = site_name n :: sequential_names (n + 1) K.
Proof.
  unfold sequential_names, site_name. cbn [seq map]. f_equal.
  - by rewrite Z.add_0_r.
  - rewrite <- seq_shift, map_map. apply map_ext. intros i.
    by replace (n + Z.of_nat (S i)) with (n + 1 + Z.of_nat i) by lia.
Qed.

Lemma planned_sites_names (n : Z) (allDomains : list string) :
  map projectName (planned_sites root n allDomains)
  = sequential_names n (length allDomains).
Proof.
  revert n. induction allDomains as [|d rest IH]; intros n; [done|].
  rewrite planned_sites_cons. cbn [map length].
  by rewrite sequential_names_succ, IH.
Qed.

Lemma planned_sites_domains (n : Z) (allDomains : list string) :
  map domain (planned_sites root n allDomains) = allDomains.
Proof.
  revert n. induction allDomains as [|d rest IH]; intros n; [done|].
  rewrite planned_sites_cons. cbn [map]. by rewrite IH.
Qed.

(** [generateProjects] appends to the generated sites a prefix of the
    planned ones, all of them when it ends normally. *)
Lemma generateProjects_sites (answers : Answers) (w : world St) (n : Z) :
  extractSiteNumber (startingSiteName answers) = Ok n →
  ∃ k : nat,
    (k ≤ length (domains cfg) * (1 + subdomainCount answers))%nat
    ∧ generatedSites (generateProjects cfg script_dir answers w).2
      = (generatedSites w
         ++ take k (planned_sites root n
                      (expand (domains cfg) (subdomainCount answers)
                         (prefixLength answers) (oracle w)).1))%list
    ∧ ((generateProjects cfg script_dir answers w).1 = Ok tt →
       k = (length (domains cfg) * (1 + subdomainCount answers))%nat).
Proof.
  intros Hn. unfold generateProjects. rewrite Hn.
  rewrite prog_bind_eval. unfold lift_result.
  rewrite prog_bind_eval. unfold with_random.
  pose proof (expand_length (domains cfg) (subdomainCount answers)
                (prefixLength answers) (oracle w)) as Hlen.
  destruct (expand _ _ _ (oracle w)) as [allDomains g1]. cbn [fst] in Hlen.
  rewrite prog_bind_eval. unfold with_random_result. cbn [host oracle generatedSites].
  destruct (planCounts _ _ _ g1) as [[counts|e] g2].
  - destruct (createSites_sites allDomains (templatePath answers) counts (n - 1) 0
                (World (host w) g2 (generatedSites w))) as (k & Hk & Hsites & Hall).
    exists k. rewrite <- Hlen.
    replace (n - 1 + 1) with n in Hsites by lia. done.
  - exists 0%nat. simpl. rewrite app_nil_r. split; [lia|done].
Qed.

(** C10. For a starting name whose trailing digit run is [digits], the
    names are [site] followed by the decimal notation of [value + i],
    where [value] is the number [digits] denotes: the conflict check
    examines exactly these for [i = 0..K-1], and project creation names
    its projects by them in the same order (all [K] of them when it ends
    normally, the first few when it throws on the way). The stem of the
    starting name and leading zeros of the digit run do not show in the
    names: a starting name ending in [007] gives [site7], [site8], ...
    This is stated for [value + K <= 2^53], the range in which
    [parseInt], [baseNumber + i], [baseNumber - 1] and
    [siteNumberCounter++] are exact. *)
Theorem site_names_from_trailing_integer
    (answers : Answers) (w : world St) (stem digits : string) :
  trailing_integer (startingSiteName answers) stem digits →
  decimal_value digits
    + Z.of_nat (length (domains cfg) * (1 + subdomainCount answers)) ≤ 2 ^ 53 →
  extractSiteNumber (startingSiteName answers) = Ok (decimal_value digits)
  ∧ validateProjectNames script_dir (host w) (startingSiteName answers)
      (length (domains cfg) * (1 + subdomainCount answers))
    = Ok (List.filter (λ name, pathExists (host w) (path_join root name))
            (sequential_names (decimal_value digits)
               (length (domains cfg) * (1 + subdomainCount answers))))
  ∧ (∃ k : nat,
       (k ≤ length (domains cfg) * (1 + subdomainCount answers))%nat
       ∧ map projectName (generatedSites (generateProjects cfg script_dir answers w).2)
         = (map projectName (generatedSites w)
            ++ take k (sequential_names (decimal_value digits)
                         (length (domains cfg) * (1 + subdomainCount answers))))%list
       ∧ ((generateProjects cfg script_dir answers w).1 = Ok tt →
          k = (length (domains cfg) * (1 + subdomainCount answers))%nat))
  ∧ sequential_names (decimal_value "007") 2 = ["site7"; "site8"].
Proof.
  intros Ht _.
  pose proof (extractSiteNumber_trailing _ _ _ Ht) as Hn.
  split; [exact Hn|]. split; [|split; [|reflexivity]].
  - unfold validateProjectNames. rewrite Hn. simpl.
    by rewrite conflicts_from_spec.
  - destruct (generateProjects_sites answers w _ Hn) as (k & Hk & Hsites & Hall).
    exists k. split; [exact Hk|]. split; [|exact Hall].
    rewrite Hsites, map_app, <- firstn_map, planned_sites_names.
    by rewrite expand_length.
Qed.

(** *** The check of the template catalog *)

Lemma has_html5_tag_inv (game : jsval) (keep : bool) :
  has_html5_tag game = Ok keep → keep = eligible game.
Proof.
  unfold has_html5_tag, eligible, game_tags, result_bind.
  destruct game as [| | | | |fields]; simpl; try (by intros [= <-]).
  destruct (assoc_get "tags" fields) as [[]|]; by intros [= <-].
Qed.

Lemma filter_games_inv (games kept : list jsval) :
  filter_games games = Ok kept → kept = List.filter eligible games.
Proof.
  revert kept. induction games as [|game rest IH]; intros kept.
  - by intros [= <-].
  - cbn [filter_games List.filter]. unfold result_bind.
    destruct (has_html5_tag game) as [keep|] eqn:Hkeep; [|done].
    destruct (filter_games rest) as [kept'|]; [|done].
    intros [= <-]. rewrite <- (has_html5_tag_inv _ _ Hkeep), (IH kept' eq_refl).
    done.
Qed.

(** When the template check computes a list, it is the list of the
    eligible entries of the catalog. *)
Lemma template_html5Games_inv (gamesData : jsval) (html5Games : list jsval) :
  template_html5Games gamesData = Ok html5Games →
  html5Games = List.filter eligible (catalog_of gamesData).
Proof.
  unfold template_html5Games, catalog_of, result_bind.
  destruct gamesData as [| | | | |fields]; simpl; try (by intros [= <-]).
  destruct (assoc_get "games" fields) as [[| [] | z | s | items | ]|]; simpl;
    repeat match goal with
           | |- context [if negb ?b then _ else _] => destruct b; simpl
           end;
    try (by intros [= <-]); try done.
  apply filter_games_inv.
Qed.

Lemma template_html5Games_records (gamesData : jsval) (catalog : list jsval) :
  get_prop gamesData "games" = Ok (Some (JArr catalog)) →
  Forall (λ game, game ≠ JNull) catalog →
  catalog_of gamesData = catalog
  ∧ template_html5Games gamesData = Ok (List.filter eligible catalog).
Proof.
  intros Hgames Hrecords. unfold template_html5Games, catalog_of.
  rewrite Hgames. simpl.
  destruct gamesData as [| | | | |fields]; simpl in Hgames; try done.
  injection Hgames as ->. split; [done|].
  by apply filter_games_eligible.
Qed.

(** Asking for the starting name and the whole of [getUserInput] read
    the machine and change nothing. *)
Lemma askStartingSiteName_reads (names : list string) (total : nat) (w : world St) :
  (askStartingSiteName script_dir names total w).2 = w.
Proof.
  induction names as [|name more IH]; [done|].
  cbn [askStartingSiteName]. destruct (test_site_digits name); [|exact IH].
  rewrite prog_bind_eval. unfold query_host.
  destruct (validateProjectNames _ _ _ _) as [conflicts|e]; [|done].
  destruct (length conflicts =? 0)%nat; [done|exact IH].
Qed.

(** The name the loop settles on has passed the prompt's validation and
    has no conflict. *)
Lemma askStartingSiteName_accepts (names : list string) (total : nat)
    (w : world St) (name : string) :
  (askStartingSiteName script_dir names total w).1 = Ok name →
  In name names
  ∧ test_site_digits name = true
  ∧ validateProjectNames script_dir (host w) name total = Ok [].
Proof.
  induction names as [|candidate more IH]; [done|].
  cbn [askStartingSiteName].
  destruct (test_site_digits candidate) eqn:Htest.
  - rewrite prog_bind_eval. unfold query_host.
    destruct (validateProjectNames script_dir (host w) candidate total)
      as [conflicts|e] eqn:Hv; [|done].
    destruct conflicts as [|c conflicts]; simpl.
    + intros [= <-]. split; [by left|done].
    + intros Hlater. destruct (IH Hlater) as (? & ? & ?). split; [by right|done].
  - intros Hlater. destruct (IH Hlater) as (? & ? & ?). split; [by right|done].
Qed.

Lemma getUserInput_reads (input : UserInput) (w : world St) :
  (getUserInput cfg script_dir input w).2 = w.
Proof.
  unfold getUserInput. rewrite prog_bind_eval.
  pose proof (askStartingSiteName_reads (in_startingSiteNames input)
    (length (domains cfg) * (1 + in_subdomainCount input)) w) as Hask.
  destruct (askStartingSiteName _ _ _ w) as [[name|e] w1]; simpl in Hask; subst w1;
    [|done].
  rewrite prog_bind_eval. unfold read_host.
  destruct (findTemplatePath _ _ _) as [foundPath|]; [|done].
  rewrite prog_bind_eval. unfold query_host at 1.
  destruct (readJson _ _) as [gamesData|e]; [|done].
  rewrite prog_bind_eval. unfold lift_result.
  destruct (template_html5Games gamesData) as [html5Games|e]; [|done].
  destruct (_ <? _); [done|].
  rewrite prog_bind_eval. unfold query_host.
  by destruct (validateTemplateProject _ _).
Qed.

(** [getUserInput] returns only after the catalog check has passed. *)
Lemma getUserInput_checked (input : UserInput) (w w' : world St) (answers : Answers) :
  getUserInput cfg script_dir input w = (Ok answers, w') →
  gamesMin answers = in_gamesMin input
  ∧ gamesMax answers = in_gamesMax input
  ∧ ∃ gamesData : jsval,
      readJson (host w) (path_join (templatePath answers) "data/games.json")
        = Ok gamesData
      ∧ gamesMax answers ≤ Z.of_nat (eligibleCount (catalog_of gamesData)).
Proof.
  unfold getUserInput. rewrite prog_bind_eval.
  pose proof (askStartingSiteName_reads (in_startingSiteNames input)
    (length (domains cfg) * (1 + in_subdomainCount input)) w) as Hask.
  destruct (askStartingSiteName _ _ _ w) as [[name|e] w1]; simpl in Hask; subst w1;
    [|done].
  rewrite prog_bind_eval. unfold read_host.
  destruct (findTemplatePath _ _ _) as [foundPath|]; [|done].
  rewrite prog_bind_eval. unfold query_host at 1.
  destruct (readJson _ _) as [gamesData|e] eqn:Hread; [|done].
  rewrite prog_bind_eval. unfold lift_result.
  destruct (template_html5Games gamesData) as [html5Games|e] eqn:Hhtml5; [|done].
  destruct (Z.ltb_spec (Z.of_nat (length html5Games)) (in_gamesMax input)); [done|].
  rewrite prog_bind_eval. unfold query_host.
  destruct (validateTemplateProject _ _); [|done].
  intros [= <- <-]. simpl. split; [done|]. split; [done|].
  exists gamesData. split; [exact Hread|].
  unfold eligibleCount. by rewrite <- (template_html5Games_inv _ _ Hhtml5).
Qed.

(** C2. When the run reaches the catalog check (the dependency check
    has passed, a starting name has been accepted, the template has been
    found and its catalog read) and the catalog holds fewer eligible
    entries than [gamesMax], the run ends with the error that reports
    it, in the state the dependency check left: nothing has been copied
    and no site has been generated. Conversely, when [getUserInput]
    returns, no count that the plan hands out exceeds the number of
    eligible entries of the template catalog. *)
Theorem insufficient_html5_aborts_before_creation
    (input : UserInput) (w w1 : world St) (name foundPath : string)
    (gamesData : jsval) (catalog : list jsval) :
  checkDependencies w = (Ok tt, w1) →
  (askStartingSiteName script_dir (in_startingSiteNames input)
     (length (domains cfg) * (1 + in_subdomainCount input)) w1).1 = Ok name →
  findTemplatePath (host w1) root (in_templateName input) = Some foundPath →
  readJson (host w1) (path_join foundPath "data/games.json") = Ok gamesData →
  get_prop gamesData "games" = Ok (Some (JArr catalog)) →
  Forall (λ game, game ≠ JNull) catalog →
  Z.of_nat (eligibleCount catalog) < in_gamesMax input →
  start cfg script_dir input w
    = (Err (InsufficientHtml5Games (eligibleCount catalog) (in_gamesMax input)), w1)
  ∧ (∀ (w0 w' : world St) (answers : Answers),
       getUserInput cfg script_dir input w0 = (Ok answers, w') →
       ∃ templateData : jsval,
         readJson (host w0) (path_join (templatePath answers) "data/games.json")
           = Ok templateData
         ∧ ∀ (totalSites siteIndex : nat) (g g' : rng) (counts : list Z) (c : Z),
             planCounts (gamesMin answers) (gamesMax answers) totalSites g
               = (Ok counts, g') →
             gamesCount_at counts siteIndex = Some c →
             c ≤ Z.of_nat (eligibleCount (catalog_of templateData))).
Proof.
  intros Hcheck Hname Hfound Hread Hgames Hrecords Hfew. split.
  - destruct (template_html5Games_records _ _ Hgames Hrecords) as [_ Hhtml5].
    unfold start. rewrite prog_bind_eval, Hcheck.
    rewrite prog_bind_eval. unfold getUserInput. rewrite prog_bind_eval.
    pose proof (askStartingSiteName_reads (in_startingSiteNames input)
      (length (domains cfg) * (1 + in_subdomainCount input)) w1) as Hask.
    destruct (askStartingSiteName _ _ _ w1) as [r w2]. simpl in Hask, Hname.
    subst r w2.
    rewrite prog_bind_eval. unfold read_host. rewrite Hfound.
    rewrite prog_bind_eval. unfold query_host at 1. rewrite Hread.
    rewrite prog_bind_eval. unfold lift_result. rewrite Hhtml5.
    fold (eligibleCount catalog).
    destruct (Z.ltb_spec (Z.of_nat (eligibleCount catalog)) (in_gamesMax input));
      [done|lia].
  - intros w0 w' answers Hinput.
    destruct (getUserInput_checked _ _ _ _ Hinput) as (_ & _ & templateData & Htd & Hmax).
    exists templateData. split; [exact Htd|].
    intros totalSites siteIndex g g' counts c Hplan Hc.
    destruct (planCounts_perm _ _ _ _ _ _ Hplan) as [Hperm _].
    assert (Hin : c ∈ counts) by (apply list_elem_of_lookup; eauto).
    rewrite Hperm in Hin. apply elem_of_seqZ in Hin. lia.
Qed.

(** *** Rewriting the site configuration *)

(** For any configuration: when the new block holds no dollar sign, it
    replaces the matched block as it is. *)
Lemma updateSiteConfig_literal_block
    (projectPath projectName newDomain content before body after : string)
    (w : world St) :
  readFile (host w) (path_join projectPath "data/site-config.js") = Ok content →
  match_site_block content = Some (before, body, after) →
  dollar_free (newSiteObject cfg newDomain) = true →
  updateSiteConfig cfg projectPath projectName newDomain w
  = call_host
      (λ s, writeFile s (path_join projectPath "data/site-config.js")
              (before +:+ newSiteObject cfg newDomain +:+ after)) w.
Proof.
  intros Hread Hm Hfree.
  unfold updateSiteConfig. rewrite prog_bind_eval. unfold query_host.
  rewrite Hread.
  by rewrite (replace_site_block_literal content _ before body after Hm Hfree).
Qed.

(** C8. For a domain the planner produces from the repository's
    configuration and a copied [data/site-config.js] that holds a site
    block, [updateSiteConfig] writes the file back with the block (the
    leftmost [const site = {] up to the first [};] after it) replaced by
    the text below, and the text before and after the block kept. In
    that text the [name] is the domain, the [url] is [https://<domain>],
    the [author] is [<domain> Team], the title, description, keywords
    and language are those of [config.js], and logo, favicon,
    twitterCard and ogImage are the four fixed asset paths ([q] is the
    double quote, [nl] the line feed). *)
Theorem updateSiteConfig_rewrites_site_block
    (projectPath projectName newDomain content : string)
    (subdomainCount prefixLength : nat) (g : rng) (w : world St) :
  In newDomain (expand (domains config) subdomainCount prefixLength g).1 →
  readFile (host w) (path_join projectPath "data/site-config.js") = Ok content →
  has_site_block content →
  ∃ before body after : string,
    content = before +:+ "const site = {" +:+ body +:+ "};" +:+ after
    ∧ (∀ before' rest', content = before' +:+ "const site = {" +:+ rest' →
         (String.length before ≤ String.length before')%nat)
    ∧ (∀ body' after', body +:+ "};" +:+ after = body' +:+ "};" +:+ after' →
         (String.length body ≤ String.length body')%nat)
    ∧ updateSiteConfig config projectPath projectName newDomain w
      = call_host
          (λ s, writeFile s (path_join projectPath "data/site-config.js")
             (let q := String "034"%char "" in
              let nl := String "010"%char "" in
              before
              +:+ (
               "const site = {" +:+ nl
               +:+ "  " +:+ q +:+ "name" +:+ q +:+ ": " +:+ q +:+ newDomain +:+ q +:+ "," +:+ nl
               +:+ "  " +:+ q +:+ "title" +:+ q +:+ ": " +:+ q
                   +:+ "game92 Games - Online HTML5 Games Platform" +:+ q +:+ "," +:+ nl
               +:+ "  " +:+ q +:+ "description" +:+ q +:+ ": " +:+ q
                   +:+ "Discover endless entertainment with our collection of premium HTML5 games. Play instantly in your browser - featuring mind-bending puzzles, thrilling adventures, strategic challenges, and fast-paced action games for all ages."
                   +:+ q +:+ "," +:+ nl
               +:+ "  " +:+ q +:+ "logo" +:+ q +:+ ": " +:+ q +:+ "/images/logo.png" +:+ q +:+ "," +:+ nl
               +:+ "  " +:+ q +:+ "favicon" +:+ q +:+ ": " +:+ q +:+ "/favicon.ico" +:+ q +:+ "," +:+ nl
               +:+ "  " +:+ q +:+ "keywords" +:+ q +:+ ": ["
                   +:+ q +:+ "Web Games" +:+ q +:+ ","
                   +:+ q +:+ "Interactive Entertainment" +:+ q +:+ ","
                   +:+ q +:+ "Instant Play Games" +:+ q +:+ ","
                   +:+ q +:+ "Cross-Platform Gaming" +:+ q +:+ ","
                   +:+ q +:+ "Educational Games" +:+ q +:+ ","
                   +:+ q +:+ "Multiplayer Games" +:+ q +:+ ","
                   +:+ q +:+ "Retro Games" +:+ q +:+ ","
                   +:+ q +:+ "Mobile-Friendly Games" +:+ q +:+ ","
                   +:+ q +:+ "Gaming Portal" +:+ q +:+ ","
                   +:+ q +:+ "Flash Alternative" +:+ q +:+ "]," +:+ nl
               +:+ "  " +:+ q +:+ "author" +:+ q +:+ ": " +:+ q +:+ newDomain +:+ " Team" +:+ q +:+ "," +:+ nl
               +:+ "  " +:+ q +:+ "language" +:+ q +:+ ": " +:+ q +:+ "en" +:+ q +:+ "," +:+ nl
               +:+ "  " +:+ q +:+ "url" +:+ q +:+ ": " +:+ q +:+ "https://" +:+ newDomain +:+ q +:+ "," +:+ nl
               +:+ "  " +:+ q +:+ "twitterCard" +:+ q +:+ ": " +:+ q
                   +:+ "/images/summary_large_image.png" +:+ q +:+ "," +:+ nl
               +:+ "  " +:+ q +:+ "ogImage" +:+ q +:+ ": " +:+ q +:+ "/images/og-image.png" +:+ q +:+ ","
                   +:+ nl
               +:+ "};")
              +:+ after)) w.
Proof.
  intros Hdomain Hread Hblock.
  destruct (match_site_block_complete content Hblock) as (before & body & after & Hm).
  destruct (match_site_block_Some _ _ _ _ Hm) as (Hcontent & Hfirst & Hlazy).
  exists before, body, after.
  split; [exact Hcontent|]. split; [exact Hfirst|]. split; [exact Hlazy|].
  unfold updateSiteConfig. rewrite prog_bind_eval. unfold query_host.
  rewrite Hread.
  rewrite (replace_site_block_literal content _ before body after Hm).
  - by rewrite newSiteObject_text.
  - apply newSiteObject_dollar_free.
    by apply (config_domain_dollar_free subdomainCount prefixLength g).
Qed.

(** C9. When the copied [data/site-config.js] holds no site block,
    [updateSiteConfig] writes the file back with the content it read;
    if that write succeeds the step ends normally, so the missing block
    goes unreported. *)
Theorem updateSiteConfig_without_block_writes_back
    (projectPath projectName newDomain content : string) (w : world St) :
  readFile (host w) (path_join projectPath "data/site-config.js") = Ok content →
  ¬ has_site_block content →
  updateSiteConfig cfg projectPath projectName newDomain w
  = call_host
      (λ s, writeFile s (path_join projectPath "data/site-config.js") content) w
  ∧ (∀ s' : St,
       writeFile (host w) (path_join projectPath "data/site-config.js") content
         = Ok s' →
       updateSiteConfig cfg projectPath projectName newDomain w
       = (Ok tt, World s' (oracle w) (generatedSites w))).
Proof.
  intros Hread Hnone.
  assert (Heq : updateSiteConfig cfg projectPath projectName newDomain w
    = call_host
        (λ s, writeFile s (path_join projectPath "data/site-config.js") content) w).
  { unfold updateSiteConfig. rewrite prog_bind_eval. unfold query_host.
    rewrite Hread. unfold replace_site_block.
    by rewrite (match_site_block_None content Hnone). }
  split; [exact Heq|].
  intros s' Hwrite. rewrite Heq. unfold call_host. by rewrite Hwrite.
Qed.

(** *** The selection inside [processGamesJson] *)

(** On a readable [games.json] whose [games] is an array, the step
    writes the file back with [games] replaced by the selection. *)
Lemma processGamesJson_writes_selection
    (projectPath : string) (gamesCount : option Z) (w : world St)
    (fields : list (string * jsval)) (catalog selected : list jsval) (g' : rng) :
  readJson (host w) (path_join projectPath "data/games.json") = Ok (JObj fields) →
  assoc_get "games" fields = Some (JArr catalog) →
  selectGames catalog gamesCount (oracle w) = (Ok selected, g') →
  processGamesJson projectPath gamesCount w
  = try_catch
      (call_host
         (λ s, writeJson s (path_join projectPath "data/games.json")
                 (JObj (assoc_set "games" (JArr selected) fields))))
      (λ _, prog_ret tt)
      (World (host w) g' (generatedSites w)).
Proof.
  intros Hread Hgames Hsel. unfold processGamesJson, try_catch.
  rewrite prog_bind_eval. unfold query_host at 1. rewrite Hread.
  rewrite prog_bind_eval. unfold lift_result. cbn [get_prop]. rewrite Hgames.
  rewrite prog_bind_eval, prog_bind_eval. unfold with_random_result. rewrite Hsel.
  reflexivity.
Qed.

(** *** What the copy leaves out *)

(** X7. The copy leaves out exactly the paths that end in the separator
    and [.git], or hold [.git] between two separators: a [.git]
    directory and everything below it, at any depth. Names that only
    start with [.git], such as [.gitignore], are copied. *)
Theorem copy_filter_excludes_git (src : string) :
  copy_filter src = false
  ↔ (∃ dir, src = dir +:+ path_sep +:+ ".git")
    ∨ (∃ dir below, src = dir +:+ path_sep +:+ ".git" +:+ path_sep +:+ below).
Proof.
  unfold copy_filter.
  destruct (endsWith (path_sep +:+ ".git") src) eqn:Hends;
    [|destruct (includes (path_sep +:+ ".git" +:+ path_sep) src) eqn:Hincl]; simpl.
  - split; [intros _|done]. left. exact (proj1 (endsWith_spec _ _) Hends).
  - split; [intros _|done]. right.
    destruct (proj1 (includes_spec _ _) Hincl) as (dir & below & ->).
    exists dir, below. by rewrite <- !string_app_assoc.
  - split; [done|]. intros [[dir Hsrc]|(dir & below & Hsrc)].
    + assert (Hends' : endsWith (path_sep +:+ ".git") src = true)
        by (apply (proj2 (endsWith_spec _ _)); by exists dir).
      congruence.
    + assert (Hincl' : includes (path_sep +:+ ".git" +:+ path_sep) src = true).
      { apply (proj2 (includes_spec _ _)). exists dir, below.
        by rewrite Hsrc, <- !string_app_assoc. }
      congruence.
Qed.

(** *** The starting name *)

(** A name the prompt accepts has a site number, so checking it for
    conflicts does not throw. *)
Lemma validateProjectNames_accepted (s : St) (name : string) (total : nat) :
  test_site_digits name = true →
  ∃ conflicts, validateProjectNames script_dir s name total = Ok conflicts.
Proof.
  intros Htest. destruct (test_site_digits_trailing name Htest) as (stem & digits & Ht).
  unfold validateProjectNames. rewrite (extractSiteNumber_trailing _ _ _ Ht).
  simpl. eauto.
Qed.

(** X8. The loop that asks for the starting name settles on the first
    name the user types that the prompt accepts and that has no
    conflict: every name typed before it was rejected by the prompt or
    had a conflict. It ends without a name only when the user's input
    runs out, and it never throws anything else. *)
Theorem askStartingSiteName_first_acceptable
    (names : list string) (total : nat) (w : world St) :
  match (askStartingSiteName script_dir names total w).1 with
  | Ok name =>
      ∃ skipped later,
        names = (skipped ++ name :: later)%list
        ∧ test_site_digits name = true
        ∧ validateProjectNames script_dir (host w) name total = Ok []
        ∧ Forall (λ other,
                    test_site_digits other = false
                    ∨ ∃ c conflicts,
                        validateProjectNames script_dir (host w) other total
                        = Ok (c :: conflicts))
                 skipped
  | Err e =>
      e = PromptClosed
      ∧ Forall (λ other,
                  test_site_digits other = false
                  ∨ ∃ c conflicts,
                      validateProjectNames script_dir (host w) other total
                      = Ok (c :: conflicts))
               names
  end.
Proof.
  induction names as [|candidate more IH]; [by split|].
  cbn [askStartingSiteName].
  assert (Hlater : ∀ reason :
      test_site_digits candidate = false
      ∨ ∃ c conflicts,
          validateProjectNames script_dir (host w) candidate total = Ok (c :: conflicts),
    match (askStartingSiteName script_dir more total w).1 with
    | Ok name =>
        ∃ skipped later,
          (candidate :: more) = (skipped ++ name :: later)%list
          ∧ test_site_digits name = true
          ∧ validateProjectNames script_dir (host w) name total = Ok []
          ∧ Forall (λ other,
                      test_site_digits other = false
                      ∨ ∃ c conflicts,
                          validateProjectNames script_dir (host w) other total
                          = Ok (c :: conflicts))
                   skipped
    | Err e =>
        e = PromptClosed
        ∧ Forall (λ other,
                    test_site_digits other = false
                    ∨ ∃ c conflicts,
                        validateProjectNames script_dir (host w) other total
                        = Ok (c :: conflicts))
                 (candidate :: more)
    end).
  { intros reason.
    destruct (askStartingSiteName script_dir more total w).1 as [name|e].
    - destruct IH as (skipped & later & -> & Hvalid & Hfree & Hskipped).
      exists (candidate :: skipped), later. repeat split; try done.
      by constructor.
    - destruct IH as [-> Hall]. split; [done|]. by constructor. }
  destruct (test_site_digits candidate) eqn:Htest; [|apply Hlater; by left].
  rewrite prog_bind_eval. unfold query_host.
  destruct (validateProjectNames_accepted (host w) candidate total Htest)
    as [conflicts Hv].
  rewrite Hv. destruct conflicts as [|c conflicts]; simpl.
  - exists [], more. repeat split; done.
  - apply Hlater. right. eauto.
Qed.

(** *** What [getUserInput] guarantees *)

Lemma findTemplatePath_from_exists (n : nat) (s : St)
    (startDir templateName currentDir p : string) :
  findTemplatePath_from n s startDir templateName currentDir = Some p →
  pathExists s p = true.
Proof.
  revert currentDir. induction n as [|n IH]; intros currentDir; [done|].
  cbn [findTemplatePath_from].
  destruct (pathExists s (path_join currentDir templateName)) eqn:Hhere;
    [by intros [= <-]|].
  destruct (String.eqb (path_dirname currentDir) currentDir); [|apply IH].
  destruct (pathExists s (path_join (path_join (path_dirname startDir) "wjspark")
                            templateName)) eqn:Hsibling; [by intros [= <-]|done].
Qed.

Lemma validateTemplateProject_ok (s : St) (fullPath : string) :
  validateTemplateProject s fullPath = Ok tt
  ↔ pathExists s fullPath = true
    ∧ pathExists s (path_join fullPath "data/site-config.js") = true
    ∧ pathExists s (path_join fullPath "data/games.json") = true.
Proof.
  unfold validateTemplateProject, requiredFiles. cbn [check_requiredFiles].
  destruct (pathExists s fullPath),
    (pathExists s (path_join fullPath "data/site-config.js")),
    (pathExists s (path_join fullPath "data/games.json")); split; try done;
    intros (? & ? & ?); done.
Qed.

(** The steps [getUserInput] has gone through when it returns. *)
Lemma getUserInput_steps (input : UserInput) (w w' : world St) (answers : Answers) :
  getUserInput cfg script_dir input w = (Ok answers, w') →
  w' = w
  ∧ answers = {| templateName := in_templateName input;
                 subdomainCount := in_subdomainCount input;
                 prefixLength := in_prefixLength input;
                 gamesMin := in_gamesMin input;
                 gamesMax := in_gamesMax input;
                 startingSiteName := startingSiteName answers;
                 templatePath := templatePath answers |}
  ∧ (askStartingSiteName script_dir (in_startingSiteNames input)
       (length (domains cfg) * (1 + in_subdomainCount input)) w).1
    = Ok (startingSiteName answers)
  ∧ findTemplatePath (host w) root (in_templateName input)
    = Some (templatePath answers)
  ∧ validateTemplateProject (host w) (templatePath answers) = Ok tt.
Proof.
  unfold getUserInput. rewrite prog_bind_eval.
  pose proof (askStartingSiteName_reads (in_startingSiteNames input)
    (length (domains cfg) * (1 + in_subdomainCount input)) w) as Hask.
  destruct (askStartingSiteName _ _ _ w) as [[name|e] w1]; simpl in Hask; subst w1;
    [|done].
  rewrite prog_bind_eval. unfold read_host.
  destruct (findTemplatePath _ _ _) as [foundPath|]; [|done].
  rewrite prog_bind_eval. unfold query_host at 1.
  destruct (readJson _ _) as [gamesData|e]; [|done].
  rewrite prog_bind_eval. unfold lift_result.
  destruct (template_html5Games gamesData) as [html5Games|e]; [|done].
  destruct (_ <? _); [done|].
  rewrite prog_bind_eval. unfold query_host.
  destruct (validateTemplateProject (host w) foundPath) as [[]|e] eqn:Hv; [|done].
  intros [= <- <-]. by repeat split.
Qed.

(** X9. When [getUserInput] returns, it has changed nothing on the
    machine; the answers carry the five values of the form; the starting
    name is one the user typed, ends in [site] and digits, has a site
    number, and none of the project folders that will be named from it
    exists; the template path is the one [findTemplatePath] found, it
    exists and it holds [data/site-config.js] and [data/games.json]. *)
Theorem getUserInput_postcondition
    (input : UserInput) (w w' : world St) (answers : Answers) :
  getUserInput cfg script_dir input w = (Ok answers, w') →
  w' = w
  ∧ (templateName answers, subdomainCount answers, prefixLength answers,
     gamesMin answers, gamesMax answers)
    = (in_templateName input, in_subdomainCount input, in_prefixLength input,
       in_gamesMin input, in_gamesMax input)
  ∧ In (startingSiteName answers) (in_startingSiteNames input)
  ∧ test_site_digits (startingSiteName answers) = true
  ∧ is_Ok (extractSiteNumber (startingSiteName answers)) = true
  ∧ validateProjectNames script_dir (host w) (startingSiteName answers)
      (length (domains cfg) * (1 + subdomainCount answers)) = Ok []
  ∧ findTemplatePath (host w) root (templateName answers)
    = Some (templatePath answers)
  ∧ pathExists (host w) (templatePath answers) = true
  ∧ pathExists (host w) (path_join (templatePath answers) "data/site-config.js") = true
  ∧ pathExists (host w) (path_join (templatePath answers) "data/games.json") = true.
Proof.
  intros Hinput.
  destruct (getUserInput_steps _ _ _ _ Hinput) as (-> & Hfields & Hask & Hfound & Hvalid).
  destruct (askStartingSiteName_accepts _ _ _ _ Hask) as (Hin & Htest & Hfree).
  apply validateTemplateProject_ok in Hvalid as (Hp & Hc & Hg).
  destruct (test_site_digits_trailing _ Htest) as (stem & digits & Ht).
  rewrite Hfields. cbn [templateName subdomainCount prefixLength gamesMin gamesMax
                        startingSiteName templatePath].
  repeat split; try done.
  by rewrite (extractSiteNumber_trailing _ _ _ Ht).
Qed.

(** X10. A template whose [games.json] has no [games] array counts as
    having no eligible game: when [games] is missing or falsy and
    [gamesMax] is positive, the check reports 0 eligible games; when
    [games] is some other value that is not an array, the check throws a
    [TypeError]. The machine is left as it was either way. *)
Theorem getUserInput_without_games_array
    (input : UserInput) (w : world St) (name foundPath : string)
    (gamesData : jsval) (games : option jsval) :
  (askStartingSiteName script_dir (in_startingSiteNames input)
     (length (domains cfg) * (1 + in_subdomainCount input)) w).1 = Ok name →
  findTemplatePath (host w) root (in_templateName input) = Some foundPath →
  readJson (host w) (path_join foundPath "data/games.json") = Ok gamesData →
  get_prop gamesData "games" = Ok games →
  (∀ items, games ≠ Some (JArr items)) →
  0 < in_gamesMax input →
  getUserInput cfg script_dir input w
  = (if truthy games
     then Err (TypeError "filter")
     else Err (InsufficientHtml5Games 0 (in_gamesMax input)),
     w).
Proof.
  intros Hname Hfound Hread Hgames Hnoarray Hmax.
  unfold getUserInput. rewrite prog_bind_eval.
  pose proof (askStartingSiteName_reads (in_startingSiteNames input)
    (length (domains cfg) * (1 + in_subdomainCount input)) w) as Hask.
  destruct (askStartingSiteName _ _ _ w) as [r w1]. simpl in Hask, Hname. subst r w1.
  rewrite prog_bind_eval. unfold read_host. rewrite Hfound.
  rewrite prog_bind_eval. unfold query_host at 1. rewrite Hread.
  rewrite prog_bind_eval. unfold lift_result, template_html5Games.
  rewrite Hgames. cbn [result_bind].
  destruct (truthy games) eqn:Htruthy.
  - destruct games as [[| | | |items|]|]; try done. by destruct (Hnoarray items).
  - cbn [length]. destruct (Z.ltb_spec (Z.of_nat 0) (in_gamesMax input)); [done|lia].
Qed.

(** *** Failures of the catalog step *)

Lemma filter_games_null (games : list jsval) :
  In JNull games → filter_games games = Err (TypeError "tags").
Proof.
  induction games as [|game rest IH]; [done|].
  intros Hin. cbn [filter_games].
  assert (Hcases : game = JNull ∨ game ≠ JNull)
    by (destruct game; [by left|by right..]).
  destruct Hcases as [->|Hgame]; [reflexivity|].
  destruct Hin as [Hhead|Hrest]; [congruence|].
  by rewrite (has_html5_tag_eligible game Hgame), (IH Hrest).
Qed.

Lemma world_eta (w : world St) :
  World (host w) (oracle w) (generatedSites w) = w.
Proof. by destruct w. Qed.

(** X11. The catalog step never throws and never touches the list of
    generated sites. When [games.json] cannot be read, or its catalog
    holds a [null] entry (on which the filter throws), it writes nothing
    and takes no draw: the run goes on with the copied catalog
    untrimmed. When [games] is not an array it writes back the data it
    read. *)
Theorem processGamesJson_soft_failure
    (projectPath : string) (gamesCount : option Z) (w : world St) :
  (processGamesJson projectPath gamesCount w).1 = Ok tt
  ∧ generatedSites (processGamesJson projectPath gamesCount w).2 = generatedSites w
  ∧ (∀ e, readJson (host w) (path_join projectPath "data/games.json") = Err e →
       (processGamesJson projectPath gamesCount w).2 = w)
  ∧ (∀ fields catalog,
       readJson (host w) (path_join projectPath "data/games.json") = Ok (JObj fields) →
       assoc_get "games" fields = Some (JArr catalog) →
       In JNull catalog →
       (processGamesJson projectPath gamesCount w).2 = w)
  ∧ (∀ gamesData games,
       readJson (host w) (path_join projectPath "data/games.json") = Ok gamesData →
       get_prop gamesData "games" = Ok games →
       (∀ items, games ≠ Some (JArr items)) →
       processGamesJson projectPath gamesCount w
       = try_catch
           (call_host (λ s, writeJson s (path_join projectPath "data/games.json")
                              gamesData))
           (λ _, prog_ret tt) w).
Proof.
  split; [apply processGamesJson_never_throws|].
  split; [apply processGamesJson_keeps_sites|].
  split; [|split].
  - intros e Hread. unfold processGamesJson, try_catch.
    rewrite prog_bind_eval. unfold query_host at 1. by rewrite Hread.
  - intros fields catalog Hread Hgames Hnull. unfold processGamesJson, try_catch.
    rewrite prog_bind_eval. unfold query_host at 1. rewrite Hread.
    rewrite prog_bind_eval. unfold lift_result. cbn [get_prop]. rewrite Hgames.
    rewrite prog_bind_eval, prog_bind_eval. unfold with_random_result, selectGames.
    rewrite (filter_games_null catalog Hnull). simpl. apply world_eta.
  - intros gamesData games Hread Hgames Hnoarray. unfold processGamesJson, try_catch.
    rewrite prog_bind_eval. unfold query_host at 1. rewrite Hread.
    rewrite prog_bind_eval. unfold lift_result. rewrite Hgames.
    rewrite prog_bind_eval.
    destruct games as [[| | | |items|]|]; try done. by destruct (Hnoarray items).
Qed.

(** *** Failures of [generateProjects] before the first copy *)


(** X12. [generateProjects] fails before it touches the machine when the
    starting name has no site number (nothing changes at all) and when
    the range of game counts holds fewer integers than there are
    projects (no call has reached the machine and no site is listed;
    only the draws for the subdomain prefixes are spent). *)
Theorem generateProjects_fails_untouched (answers : Answers) (w : world St) :
  (last_is_digit (startingSiteName answers) = false →
   generateProjects cfg script_dir answers w
   = (Err (NoSiteNumber (startingSiteName answers)), w))
  ∧ (is_Ok (extractSiteNumber (startingSiteName answers)) = true →
     (length (possibleCounts (gamesMin answers) (gamesMax answers))
      < length (domains cfg) * (1 + subdomainCount answers))%nat →
     (generateProjects cfg script_dir answers w).1
     = Err (CountRangeTooSmall
              (length (possibleCounts (gamesMin answers) (gamesMax answers)))
              (length (domains cfg) * (1 + subdomainCount answers)))
     ∧ host (generateProjects cfg script_dir answers w).2 = host w
     ∧ generatedSites (generateProjects cfg script_dir answers w).2 = generatedSites w).
Proof.
  split.
  - intros Hlast. unfold generateProjects.
    by rewrite (extractSiteNumber_no_digits _ Hlast).
  - intros Hn Hrange. unfold generateProjects.
    destruct (extractSiteNumber (startingSiteName answers)) as [n|]; [|done].
    rewrite prog_bind_eval. unfold lift_result.
    rewrite prog_bind_eval. unfold with_random.
    destruct (expand _ _ _ (oracle w)) as [allDomains g1].
    rewrite prog_bind_eval. unfold with_random_result, planCounts.
    cbn [host oracle generatedSites].
    apply Nat.ltb_lt in Hrange. by rewrite Hrange.
Qed.


(** *** Deployment *)

Lemma deploySite_keeps_sites (s : site) : keeps_sites (deploySite cfg s).
Proof. unfold deploySite. auto 10 with keeps. Qed.

(** Whatever goes wrong while a site is deployed is reported as the
    failure of that site. *)
Lemma deploySite_outcome (s : site) (w : world St) :
  (deploySite cfg s w).1 = Ok tt
  ∨ (deploySite cfg s w).1 = Err (DeployFailed (projectName s)).
Proof.
  unfold deploySite, try_catch.
  destruct (prog_bind _ _ w) as [[[]|e] w1]; [by left|by right].
Qed.

Lemma deploySites_keeps_sites (sites : list site) : keeps_sites (deploySites cfg sites).
Proof.
  induction sites as [|s rest IH]; [done|].
  cbn [deploySites]. apply keeps_sites_bind; [apply deploySite_keeps_sites|done].
Qed.

Lemma deploySites_outcome (sites : list site) (w : world St) :
  (deploySites cfg sites w).1 = Ok tt
  ∨ ∃ done_ s later,
      sites = (done_ ++ s :: later)%list
      ∧ (deploySites cfg done_ w).1 = Ok tt
      ∧ (deploySite cfg s (deploySites cfg done_ w).2).1 = Err (DeployFailed (projectName s))
      ∧ deploySites cfg sites w = deploySite cfg s (deploySites cfg done_ w).2.
Proof.
  revert w. induction sites as [|s0 rest IH]; intros w; [by left|].
  cbn [deploySites]. rewrite prog_bind_eval.
  destruct (deploySite_outcome s0 w) as [Hok|Hfail].
  - destruct (deploySite cfg s0 w) as [r w1] eqn:Hs0. simpl in Hok. subst r.
    destruct (IH w1) as [Hrest|(done_ & s & later & -> & Hdone & Hs & Heq)];
      [by left|].
    right. exists (s0 :: done_), s, later.
    cbn [deploySites]. rewrite prog_bind_eval, Hs0. done.
  - right. exists [], s0, rest. cbn [deploySites prog_ret snd fst app].
    destruct (deploySite cfg s0 w) as [r w1]. simpl in Hfail. by subst r.
Qed.

(** X14. Deployment never changes the list of generated sites. With the
    placeholder or an empty GitHub user name it throws before any call.
    Otherwise it either ends normally or stops at the first site whose
    deployment fails: the sites before it have been deployed, the error
    names that site, and the sites after it are not attempted (the
    outcome is that of the failing site). *)
Theorem deployToGitHub_outcome (w : world St) :
  generatedSites (deployToGitHub cfg w).2 = generatedSites w
  ∧ (githubUsername cfg = "YourGitHubUsername" ∨ githubUsername cfg = "" →
     deployToGitHub cfg w = (Err GithubUsernameUnset, w))
  ∧ (githubUsername cfg ≠ "YourGitHubUsername" → githubUsername cfg ≠ "" →
     (deployToGitHub cfg w).1 = Ok tt
     ∨ ∃ done_ s later,
         generatedSites w = (done_ ++ s :: later)%list
         ∧ (deploySites cfg done_ w).1 = Ok tt
         ∧ (deployToGitHub cfg w).1 = Err (DeployFailed (projectName s))
         ∧ deployToGitHub cfg w = deploySite cfg s (deploySites cfg done_ w).2).
Proof.
  unfold deployToGitHub.
  destruct (String.eqb_spec (githubUsername cfg) "YourGitHubUsername") as [Hph|Hph];
    [|destruct (String.eqb_spec (githubUsername cfg) "") as [Hempty|Hempty]]; simpl.
  - split; [done|]. split; [done|]. intros Hne. by destruct Hne.
  - split; [done|]. split; [done|]. intros _ Hne. by destruct Hne.
  - split; [apply deploySites_keeps_sites|]. split; [intros [?|?]; done|].
    intros _ _.
    destruct (deploySites_outcome (generatedSites w) w)
      as [Hok|(done_ & s & later & Hsites & Hdone & Hs & Heq)]; [by left|].
    right. exists done_, s, later. rewrite Heq. done.
Qed.

(** *** A run that ends normally *)

Lemma checkDependencies_frame (w : world St) :
  generatedSites (checkDependencies w).2 = generatedSites w
  ∧ oracle (checkDependencies w).2 = oracle w.
Proof.
  unfold checkDependencies. rewrite prog_bind_eval.
  unfold try_catch, call_host, throw.
  destruct (execSync (host w) None "gh --version") as [s1|e1]; [|done].
  cbn [host oracle generatedSites].
  by destruct (execSync s1 None "gh auth status") as [s2|e2].
Qed.

Lemma deployToGitHub_keeps_sites : keeps_sites (deployToGitHub cfg).
Proof.
  intros w. unfold deployToGitHub.
  destruct (_ || _); [done|]. apply deploySites_keeps_sites.
Qed.

Lemma planned_sites_length (n : Z) (allDomains : list string) :
  length (planned_sites root n allDomains) = length allDomains.
Proof. unfold planned_sites. apply length_imap. Qed.

(** X15. A run that ends normally, on typed names whose site numbers
    leave room for the planned projects below 2^53, is the chain of its
    five steps: the dependency check, the questions (which leave the
    machine as it is), project generation, deployment and the writing of
    the mapping. Generation has added one site per planned domain to the
    list, in the order of the plan: the projects are named [site<n>],
    [site<n+1>], ... from the number [n] of a starting name the user
    typed, their folders lie in the workspace root, and their domains
    are the planned ones. Deployment leaves that list alone. The last
    step writes, on the machine deployment left, the array that holds
    for each listed site the object with its [siteName] and its
    [domain], to [generated-sites-map.json] in the script's directory;
    the machine so written is the final one. *)
Theorem start_success_sites (input : UserInput) (w : world St) :
  (∀ name n, In name (in_startingSiteNames input) →
     extractSiteNumber name = Ok n →
     n + Z.of_nat (length (domains cfg) * (1 + in_subdomainCount input)) ≤ 2 ^ 53) →
  (start cfg script_dir input w).1 = Ok tt →
  ∃ (name : string) (n : Z) (answers : Answers) (checked generated deployed : world St)
    (written : St),
    In name (in_startingSiteNames input)
    ∧ extractSiteNumber name = Ok n
    ∧ startingSiteName answers = name
    ∧ checkDependencies w = (Ok tt, checked)
    ∧ getUserInput cfg script_dir input checked = (Ok answers, checked)
    ∧ generateProjects cfg script_dir answers checked = (Ok tt, generated)
    ∧ generatedSites generated
      = (generatedSites w
         ++ imap (λ i newDomain,
                    {| projectName := "site" +:+ number_to_string (n + Z.of_nat i);
                       path := path_join root
                                 ("site" +:+ number_to_string (n + Z.of_nat i));
                       domain := newDomain |})
              (expand (domains cfg) (in_subdomainCount input)
                 (in_prefixLength input) (oracle w)).1)%list
    ∧ deployToGitHub cfg generated = (Ok tt, deployed)
    ∧ generatedSites deployed = generatedSites generated
    ∧ writeJson (host deployed) (path_join script_dir "generated-sites-map.json")
        (JArr (map (λ s, JObj [("siteName", JStr (projectName s));
                               ("domain", JStr (domain s))])
                 (generatedSites generated)))
      = Ok written
    ∧ start cfg script_dir input w
      = (Ok tt, World written (oracle deployed) (generatedSites generated)).
Proof.
  intros _. unfold start. rewrite prog_bind_eval.
  destruct (checkDependencies_frame w) as [Hsites1 Horacle1].
  destruct (checkDependencies w) as [[[]|e] w1] eqn:Hcheck; [|done].
  cbn [snd] in Hsites1, Horacle1.
  rewrite prog_bind_eval.
  destruct (getUserInput cfg script_dir input w1) as [[answers|e] w1'] eqn:Hinput;
    [|done].
  destruct (getUserInput_steps _ _ _ _ Hinput) as (-> & Hfields & Hask & _ & _).
  destruct (askStartingSiteName_accepts _ _ _ _ Hask) as (Hin & Htest & _).
  destruct (test_site_digits_trailing _ Htest) as (stem & digits & Ht).
  pose proof (extractSiteNumber_trailing _ _ _ Ht) as Hn.
  rewrite prog_bind_eval.
  destruct (generateProjects_sites answers w1 _ Hn) as (k & _ & Hsites2 & Hall).
  destruct (generateProjects cfg script_dir answers w1) as [[[]|e] w2] eqn:Hgen; [|done].
  cbn [fst snd] in Hsites2, Hall.
  rewrite prog_bind_eval.
  pose proof (deployToGitHub_keeps_sites w2) as Hsites3.
  destruct (deployToGitHub cfg w2) as [[[]|e] w3] eqn:Hdeploy; [|done].
  cbn [snd] in Hsites3.
  unfold writeSiteMappings, call_host.
  rewrite Hsites3.
  destruct (writeJson (host w3) _ _) as [s4|e] eqn:Hwrite; [|done].
  intros _.
  exists (startingSiteName answers), (decimal_value digits), answers, w1, w2, w3, s4.
  split; [exact Hin|]. split; [exact Hn|]. split; [done|]. split; [done|].
  split; [done|]. split; [done|]. split.
  - rewrite Hsites2, (Hall eq_refl), Hsites1, Horacle1.
    rewrite Hfields. cbn [subdomainCount prefixLength].
    f_equal. apply take_ge.
    unfold planned_sites. by rewrite length_imap, expand_length.
  - split; [done|]. split; [exact Hsites3|]. split; [exact Hwrite|].
    done.
Qed.

(** *** A project whose site configuration cannot be read *)

(** X17. Unlike a failure of the catalog step, a failure to read the
    copied [data/site-config.js] is fatal: the error ends the loop over
    the domains at once. The copy of that project stays on the machine,
    but the project is not listed among the generated sites, and no
    later domain is handled. *)
Theorem createSites_config_unreadable
    (newDomain : string) (later : list string) (templatePath : string)
    (counts : list Z) (siteNumberCounter : Z) (siteIndex : nat)
    (w : world St) (copied : St) (e : error) :
  pathExists (host w) (path_join root (site_name (siteNumberCounter + 1))) = false →
  copy (host w) templatePath (path_join root (site_name (siteNumberCounter + 1)))
    copy_filter = Ok copied →
  readFile copied
    (path_join (path_join root (site_name (siteNumberCounter + 1))) "data/site-config.js")
    = Err e →
  createSites cfg script_dir (newDomain :: later) templatePath counts
    siteNumberCounter siteIndex w
  = (Err e, World copied (oracle w) (generatedSites w)).
Proof.
  intros Hfree Hcopy Hread.
  cbn [createSites]. rewrite prog_bind_eval. unfold read_host. rewrite Hfree.
  rewrite prog_bind_eval. unfold call_host at 1. rewrite Hcopy.
  rewrite prog_bind_eval. unfold updateSiteConfig.
  rewrite prog_bind_eval. unfold query_host. cbn [host]. by rewrite Hread.
Qed.

(** *** Names of the generated sites *)

(** X18. The sites a call of [generateProjects] adds to the list have
    pairwise distinct project names, and there are at most as many as
    there are planned domains. Stated for a starting number [n] with
    [n + K <= 2^53], [K] the number of planned domains: there the
    counter advances with every project. *)
Theorem generateProjects_names_distinct
    (answers : Answers) (w : world St) (n : Z) :
  extractSiteNumber (startingSiteName answers) = Ok n →
  n + Z.of_nat (length (domains cfg) * (1 + subdomainCount answers)) ≤ 2 ^ 53 →
  ∃ added : list site,
    generatedSites (generateProjects cfg script_dir answers w).2
      = (generatedSites w ++ added)%list
    ∧ NoDup (map projectName added)
    ∧ (length added ≤ length (domains cfg) * (1 + subdomainCount answers))%nat.
Proof.
  intros Hn _.
  destruct (generateProjects_sites answers w n Hn) as (k & Hk & Hsites & _).
  eexists. split; [exact Hsites|]. split.
  - rewrite <- firstn_map, planned_sites_names.
    eapply sublist_NoDup; [|apply sublist_take].
    apply sequential_names_NoDup. exact (extractSiteNumber_nonneg _ _ Hn).
  - rewrite length_take. lia.
Qed.
End HostProperties.

(** ** The program on the sample workspace *)

Example start_sample_sites :
  (start config "/work/batch-processor" sample_input (sample_world 8)).1 = Ok tt
  ∧ generatedSites
      (start config "/work/batch-processor" sample_input (sample_world 8)).2
    = [ Site "site47" "/work/site47" "game92.vip";
        Site "site48" "/work/site48" "1fa61.game92.vip";
        Site "site49" "/work/site49" "fa61f.game92.vip" ].
Proof. split; vm_compute; reflexivity. Qed.

Example findTemplatePath_sample :
  findTemplatePath (sample_disk 8) "/work" "site31" = Some "/work/site31"
  ∧ findTemplatePath (sample_disk 8) "/work/a/b/c" "site31" = Some "/work/site31"
  ∧ findTemplatePath (sample_disk 8) "/work/a/b/c/d/e" "site31" = None
  ∧ locate_candidates "/work" "site31"
    = ["/work/site31"; "/site31"; "/wjspark/site31"].
Proof. repeat split; vm_compute; reflexivity. Qed.

(** A template that lies in the fifth parent of the workspace root is
    within a walk of five parent levels, and [findTemplatePath] does not
    find it: its fifth and last iteration tries the fourth parent. *)
Lemma findTemplatePath_fifth_parent_counterexample :
  ancestor 5 "/work/a/b/c/d/e" = "/work"
  ∧ pathExists (sample_disk 8) (path_join "/work" "site31") = true
  ∧ claimed_locate (sample_disk 8) "/work/a/b/c/d/e" "site31" = Some "/work/site31"
  ∧ findTemplatePath (sample_disk 8) "/work/a/b/c/d/e" "site31" = None
  ∧ findTemplatePath (sample_disk 8) "/work/a/b/c/d/e" "site31"
    ≠ claimed_locate (sample_disk 8) "/work/a/b/c/d/e" "site31".
Proof. repeat split; vm_compute; congruence. Qed.

Example planCounts_sample :
  (planCounts 3 6 3 sample_draw).1 = Ok [4; 5; 3; 6]
  ∧ (planCounts 10 12 5 sample_draw).1 = Err (CountRangeTooSmall 3 5).
Proof. split; vm_compute; reflexivity. Qed.

Example expand_sample :
  (expand ["a.com"] 2 5 sample_draw).1 = ["a.com"; "1fa61.a.com"; "fa61f.a.com"].
Proof. vm_compute. reflexivity. Qed.

(** ** Instances of the conditional properties *)

Lemma validateProjectNames_existing_subset_witness :
  trailing_integer "site39" "site" "39"
  ∧ decimal_value "39" + Z.of_nat 3 ≤ 2 ^ 53
  ∧ validateProjectNames "/work/batch-processor" (sample_disk 8) "site39" 3
    = Ok ["site40"].
Proof.
  assert (Ht : trailing_integer "site39" "site" "39")
    by (repeat split; [discriminate]).
  assert (Hsafe : decimal_value "39" + Z.of_nat 3 ≤ 2 ^ 53)
    by (vm_compute; congruence).
  split; [exact Ht|]. split; [exact Hsafe|].
  destruct (validateProjectNames_existing_subset "/work/batch-processor"
              (sample_disk 8) "site39" "site" "39" 3 Ht Hsafe) as [Heq _].
  rewrite Heq. vm_compute. reflexivity.
Defined.

Lemma site_names_from_trailing_integer_witness :
  trailing_integer (startingSiteName sample_answers) "mysite" "047"
  ∧ decimal_value "047"
      + Z.of_nat (length (domains config) * (1 + subdomainCount sample_answers))
    ≤ 2 ^ 53
  ∧ map projectName
      (generatedSites
         (generateProjects config "/work/batch-processor" sample_answers
            (sample_world 8)).2)
    = ["site47"; "site48"; "site49"].
Proof.
  assert (Ht : trailing_integer (startingSiteName sample_answers) "mysite" "047")
    by (repeat split; [discriminate]).
  assert (Hsafe : decimal_value "047"
                  + Z.of_nat (length (domains config)
                              * (1 + subdomainCount sample_answers)) ≤ 2 ^ 53)
    by (vm_compute; congruence).
  split; [exact Ht|]. split; [exact Hsafe|].
  destruct (site_names_from_trailing_integer config "/work/batch-processor"
              sample_answers (sample_world 8) "mysite" "047" Ht Hsafe)
    as (_ & _ & (k & _ & Hnames & Hall) & _).
  rewrite Hnames, (Hall ltac:(vm_compute; reflexivity)). vm_compute. reflexivity.
Defined.

Lemma insufficient_html5_aborts_before_creation_witness :
  Z.of_nat (eligibleCount (catalog_of (sample_catalog 4))) < in_gamesMax sample_input
  ∧ start config "/work/batch-processor" sample_input (sample_world 4)
    = (Err (InsufficientHtml5Games 4 6), sample_world 4).
Proof.
  split; [vm_compute; reflexivity|].
  refine (proj1 (insufficient_html5_aborts_before_creation config
    "/work/batch-processor" sample_input (sample_world 4) (sample_world 4)
    "mysite047" "/work/site31" (sample_catalog 4) (catalog_of (sample_catalog 4))
    _ _ _ _ _ _ _)).
  - reflexivity.
  - vm_compute. reflexivity.
  - vm_compute. reflexivity.
  - vm_compute. reflexivity.
  - reflexivity.
  - vm_compute. repeat constructor; discriminate.
  - vm_compute. reflexivity.
Defined.

Lemma updateSiteConfig_rewrites_site_block_witness :
  In "1fa61.game92.vip" (expand (domains config) 2 5 sample_draw).1
  ∧ readFile (host (sample_world 8)) (path_join "/work/site31" "data/site-config.js")
    = Ok sample_site_config
  ∧ has_site_block sample_site_config
  ∧ ∃ before body after : string,
      sample_site_config = before +:+ "const site = {" +:+ body +:+ "};" +:+ after
      ∧ updateSiteConfig config "/work/site31" "site31" "1fa61.game92.vip"
          (sample_world 8)
        = call_host
            (λ s, writeFile s (path_join "/work/site31" "data/site-config.js")
               (before +:+ newSiteObject config "1fa61.game92.vip" +:+ after))
            (sample_world 8).
Proof.
  assert (Hd : In "1fa61.game92.vip" (expand (domains config) 2 5 sample_draw).1)
    by (vm_compute; tauto).
  assert (Hr : readFile (host (sample_world 8))
                 (path_join "/work/site31" "data/site-config.js")
               = Ok sample_site_config) by (vm_compute; reflexivity).
  assert (Hb : has_site_block sample_site_config).
  { exists ("// generated" +:+ newline),
           (newline +:+ "  name: 'template'," +:+ newline),
           (newline +:+ "export default site;" +:+ newline).
    vm_compute. reflexivity. }
  split; [exact Hd|]. split; [exact Hr|]. split; [exact Hb|].
  destruct (updateSiteConfig_rewrites_site_block "/work/site31" "site31"
              "1fa61.game92.vip" sample_site_config 2 5 sample_draw (sample_world 8)
              Hd Hr Hb) as (before & body & after & Hcontent & _ & _ & Hupd).
  exists before, body, after. split; [exact Hcontent|exact Hupd].
Defined.

Example updateSiteConfig_sample :
  ∃ s' : disk,
    updateSiteConfig config "/work/site31" "site31" "1fa61.game92.vip" (sample_world 8)
      = (Ok tt, World s' sample_draw [])
    ∧ ∃ text : string,
        let q := String "034"%char "" in
        let nl := String "010"%char "" in
        s' !! "/work/site31/data/site-config.js" = Some (TextFile text)
        ∧ String.prefix ("// generated" +:+ nl +:+ "const site = {" +:+ nl
                         +:+ "  " +:+ q +:+ "name" +:+ q +:+ ": "
                         +:+ q +:+ "1fa61.game92.vip" +:+ q +:+ "," +:+ nl) text = true
        ∧ includes (nl +:+ "  " +:+ q +:+ "url" +:+ q +:+ ": "
                    +:+ q +:+ "https://1fa61.game92.vip" +:+ q +:+ "," +:+ nl) text = true
        ∧ includes (nl +:+ "  " +:+ q +:+ "author" +:+ q +:+ ": "
                    +:+ q +:+ "1fa61.game92.vip Team" +:+ q +:+ "," +:+ nl) text = true
        ∧ endsWith ("," +:+ nl +:+ "};" +:+ nl +:+ "export default site;" +:+ nl) text
          = true.
Proof.
  eexists. split; [vm_compute; reflexivity|].
  eexists. cbv zeta. split; [vm_compute; reflexivity|].
  repeat split; vm_compute; reflexivity.
Qed.

Lemma blockless_no_site_block : ¬ has_site_block blockless_site_config.
Proof.
  intros Hb. destruct (match_site_block_complete _ Hb) as (? & ? & ? & Hm).
  vm_compute in Hm. discriminate Hm.
Qed.

Lemma updateSiteConfig_without_block_writes_back_witness :
  readFile (host blockless_world) (path_join "/work/site31" "data/site-config.js")
    = Ok blockless_site_config
  ∧ ¬ has_site_block blockless_site_config
  ∧ updateSiteConfig config "/work/site31" "site31" "game92.vip" blockless_world
    = (Ok tt, blockless_world).
Proof.
  assert (Hr : readFile (host blockless_world)
                 (path_join "/work/site31" "data/site-config.js")
               = Ok blockless_site_config) by (vm_compute; reflexivity).
  split; [exact Hr|]. split; [exact blockless_no_site_block|].
  destruct (updateSiteConfig_without_block_writes_back config "/work/site31" "site31"
              "game92.vip" blockless_site_config blockless_world Hr
              blockless_no_site_block) as [_ Hwrite].
  rewrite (Hwrite (host blockless_world)); [reflexivity|].
  cbn [writeFile disk_host]. f_equal.
  all: try (apply insert_id; vm_compute; reflexivity).
Defined.

(** ** Instances of the further properties *)

Lemma generateProjects_fails_untouched_witness :
  is_Ok (extractSiteNumber "site47") = true
  ∧ (length (possibleCounts 10 11) < length (domains config) * (1 + 2))%nat
  ∧ (generateProjects config "/work/batch-processor"
       {| templateName := "site31"; subdomainCount := 2; prefixLength := 5;
          gamesMin := 10; gamesMax := 11; startingSiteName := "site47";
          templatePath := "/work/site31" |} (sample_world 8)).1
    = Err (CountRangeTooSmall 2 3).
Proof.
  split; [reflexivity|]. split; [vm_compute; lia|].
  refine (proj1 (proj2 (generateProjects_fails_untouched config "/work/batch-processor"
    {| templateName := "site31"; subdomainCount := 2; prefixLength := 5;
       gamesMin := 10; gamesMax := 11; startingSiteName := "site47";
       templatePath := "/work/site31" |} (sample_world 8)) _ _)).
  - reflexivity.
  - vm_compute. lia.
Defined.


Lemma replace_site_block_again_witness :
  In "game92.vip" (expand (domains config) 2 5 sample_draw).1
  ∧ In "1fa61.game92.vip" (expand (domains config) 2 5 sample_draw).1
  ∧ replace_site_block
      (replace_site_block sample_site_config (newSiteObject config "game92.vip"))
      (newSiteObject config "1fa61.game92.vip")
    = replace_site_block sample_site_config (newSiteObject config "1fa61.game92.vip").
Proof.
  assert (H1 : In "game92.vip" (expand (domains config) 2 5 sample_draw).1)
    by (vm_compute; tauto).
  assert (H2 : In "1fa61.game92.vip" (expand (domains config) 2 5 sample_draw).1)
    by (vm_compute; tauto).
  split; [exact H1|]. split; [exact H2|].
  exact (replace_site_block_again sample_site_config _ _ 2 5 sample_draw sample_draw H1 H2).
Defined.

Lemma getUserInput_postcondition_witness :
  getUserInput config "/work/batch-processor" sample_input (sample_world 8)
    = (Ok sample_answers, sample_world 8)
  ∧ validateProjectNames "/work/batch-processor" (host (sample_world 8))
      (startingSiteName sample_answers)
      (length (domains config) * (1 + subdomainCount sample_answers)) = Ok []
  ∧ pathExists (host (sample_world 8)) (templatePath sample_answers) = true.
Proof.
  assert (Hinput : getUserInput config "/work/batch-processor" sample_input (sample_world 8)
                   = (Ok sample_answers, sample_world 8)) by (vm_compute; reflexivity).
  split; [exact Hinput|].
  destruct (getUserInput_postcondition config "/work/batch-processor" sample_input
              (sample_world 8) (sample_world 8) sample_answers Hinput)
    as (_ & _ & _ & _ & _ & Hfree & _ & Hexists & _).
  split; [exact Hfree|exact Hexists].
Defined.

Lemma getUserInput_without_games_array_witness :
  get_prop (JObj [("title", JStr "none")]) "games" = Ok None
  ∧ 0 < in_gamesMax sample_input
  ∧ getUserInput config "/work/batch-processor" sample_input gameless_world
    = (Err (InsufficientHtml5Games 0 6), gameless_world).
Proof.
  split; [reflexivity|]. split; [reflexivity|].
  refine (getUserInput_without_games_array config "/work/batch-processor" sample_input
            gameless_world "mysite047" "/work/site31" (JObj [("title", JStr "none")])
            None _ _ _ _ _ _).
  - vm_compute. reflexivity.
  - vm_compute. reflexivity.
  - vm_compute. reflexivity.
  - reflexivity.
  - intros items. discriminate.
  - reflexivity.
Defined.


Lemma start_success_sites_witness :
  (∀ name n, In name (in_startingSiteNames sample_input) →
     extractSiteNumber name = Ok n →
     n + Z.of_nat (length (domains config) * (1 + in_subdomainCount sample_input))
     ≤ 2 ^ 53)
  ∧ (start config "/work/batch-processor" sample_input (sample_world 8)).1 = Ok tt
  ∧ ∃ (name : string) (n : Z) (deployed : world disk) (written : disk),
      In name (in_startingSiteNames sample_input)
      ∧ extractSiteNumber name = Ok n
      ∧ writeJson (host deployed)
          (path_join "/work/batch-processor" "generated-sites-map.json")
          (JArr (map (λ s, JObj [("siteName", JStr (projectName s));
                                 ("domain", JStr (domain s))])
                   (imap (λ i newDomain,
                            {| projectName := "site" +:+ number_to_string (n + Z.of_nat i);
                               path := path_join (workspaceRoot "/work/batch-processor")
                                         ("site" +:+ number_to_string (n + Z.of_nat i));
                               domain := newDomain |})
                      (expand (domains config) 2 5 sample_draw).1)))
        = Ok written
      ∧ host (start config "/work/batch-processor" sample_input (sample_world 8)).2
        = written.
Proof.
  assert (Hsafe : ∀ name n, In name (in_startingSiteNames sample_input) →
            extractSiteNumber name = Ok n →
            n + Z.of_nat (length (domains config)
                          * (1 + in_subdomainCount sample_input)) ≤ 2 ^ 53).
  { intros name n [<-|[<-|[<-|[]]]] Hn; vm_compute in Hn;
      [discriminate| |]; injection Hn as <-; vm_compute; congruence. }
  assert (Hok : (start config "/work/batch-processor" sample_input (sample_world 8)).1
                = Ok tt) by (vm_compute; reflexivity).
  split; [exact Hsafe|]. split; [exact Hok|].
  destruct (start_success_sites config "/work/batch-processor" sample_input
              (sample_world 8) Hsafe Hok)
    as (name & n & answers & checked & generated & deployed & written
        & Hin & Hn & _ & _ & _ & _ & Hsites & _ & _ & Hwrite & Hstart).
  exists name, n, deployed, written.
  split; [exact Hin|]. split; [exact Hn|]. split.
  - rewrite Hsites in Hwrite. exact Hwrite.
  - by rewrite Hstart.
Defined.

Lemma generateProjects_names_distinct_witness :
  extractSiteNumber (startingSiteName sample_answers) = Ok 47
  ∧ 47 + Z.of_nat (length (domains config) * (1 + subdomainCount sample_answers))
    ≤ 2 ^ 53
  ∧ ∃ added : list site,
      generatedSites
        (generateProjects config "/work/batch-processor" sample_answers
           (sample_world 8)).2
      = (generatedSites (sample_world 8) ++ added)%list
      ∧ NoDup (map projectName added).
Proof.
  assert (Hn : extractSiteNumber (startingSiteName sample_answers) = Ok 47)
    by reflexivity.
  assert (Hsafe : 47 + Z.of_nat (length (domains config)
                                 * (1 + subdomainCount sample_answers)) ≤ 2 ^ 53)
    by (vm_compute; congruence).
  split; [exact Hn|]. split; [exact Hsafe|].
  destruct (generateProjects_names_distinct config "/work/batch-processor"
              sample_answers (sample_world 8) 47 Hn Hsafe)
    as (added & Hsites & Hdistinct & _).
  exists added. split; [exact Hsites | exact Hdistinct].
Defined.

Lemma createSites_config_unreadable_witness :
  pathExists (host (sample_world 8))
    (path_join (workspaceRoot "/work/batch-processor") (site_name (46 + 1))) = false
  ∧ is_Ok (copy (host (sample_world 8)) "/work/site40"
             (path_join (workspaceRoot "/work/batch-processor") (site_name (46 + 1)))
             copy_filter) = true
  ∧ (createSites config "/work/batch-processor" ["game92.vip"; "x.game92.vip"]
       "/work/site40" [4; 5] 46 0 (sample_world 8)).1
    = Err (IOError "/work/site47/data/site-config.js")
  ∧ generatedSites
      (createSites config "/work/batch-processor" ["game92.vip"; "x.game92.vip"]
         "/work/site40" [4; 5] 46 0 (sample_world 8)).2 = [].
Proof.
  assert (Hfree : pathExists (host (sample_world 8))
    (path_join (workspaceRoot "/work/batch-processor") (site_name (46 + 1))) = false)
    by (vm_compute; reflexivity).
  split; [exact Hfree|]. split; [vm_compute; reflexivity|].
  assert (Hcopy : ∃ copied,
    copy (host (sample_world 8)) "/work/site40"
      (path_join (workspaceRoot "/work/batch-processor") (site_name (46 + 1)))
      copy_filter = Ok copied
    ∧ readFile copied
        (path_join (path_join (workspaceRoot "/work/batch-processor")
                      (site_name (46 + 1))) "data/site-config.js")
      = Err (IOError "/work/site47/data/site-config.js")).
  { eexists. split; [vm_compute; reflexivity|]. vm_compute. reflexivity. }
  destruct Hcopy as (copied & Hcopy & Hread).
  rewrite (createSites_config_unreadable config "/work/batch-processor"
             "game92.vip" ["x.game92.vip"] "/work/site40" [4; 5] 46 0 (sample_world 8)
             copied _ Hfree Hcopy Hread).
  split; reflexivity.
Defined.

Example copy_filter_posix :
  copy_filter "/work/site31/.git" = false
  ∧ copy_filter "/work/site31/.git/config" = false
  ∧ copy_filter "/work/site31/.gitignore" = true
  ∧ copy_filter "/work/site31/.github/ci.yml" = true
  ∧ copy_filter "/work/site31/data/games.json" = true.
Proof. repeat split; reflexivity. Qed.
